(** * dcdc: the container-address cache and its DNS rule

    A shallow embedding of [src/dcdc/application.py]: the cache builder
    [Application.populate_cache] and the rule [compose_project_rule] that
    [Application.attach_rules] registers for [*.*.<root>] with types A and
    AAAA.

    What the program reads from outside is made explicit:
    - [time.time()] is an oracle indexed by the number of readings made so
      far;
    - [self.docker.containers.list()] is an oracle indexed by the number of
      calls made so far, each call either returning a snapshot or raising;
    - the application object is a record threaded through a state-and-exception
      monad; what was written to the state before an exception stays written,
      as in Python.

    Timestamps are Python floats, that is binary64 numbers.  A timestamp is
    modelled by the rational it denotes, and the one float operation of the
    program, the subtraction [now - last_updated], by the exact difference
    rounded to the nearest number with a 53-bit significand, ties to even
    ([fsub]).  The exponent range is not modelled: [time.time()] counts
    nanoseconds in 64 bits, so readings stay below 2^34 seconds in
    magnitude, where a difference can neither overflow nor lose bits to
    gradual underflow.

    The DNS library is not part of the repository.  Its record constructors
    [nserver.A] and [nserver.AAAA] validate their arguments and may raise;
    what they raise, if anything, is a parameter of the model. *)

From Stdlib Require Import ZArith QArith Qround Lqa Ascii String List Lia.
From stdpp Require Import base option list strings gmap fin_maps.

#[local] Set Warnings "-clear-no-such-hyp".

Local Open Scope Z_scope.
Local Open Scope string_scope.
Local Open Scope list_scope.

(** ** Data as the collaborators expose it *)

Module Docker.

(** One value of [container.attrs["NetworkSettings"]["Networks"]]: a
    mapping that may or may not carry each address key. *)
Record Network := {
  IPAddress : option string;
  GlobalIPv6Address : option string
}.

(** A container of [docker.containers.list()]: [labels] is
    [attrs["Config"]["Labels"]], [networks] is
    [attrs["NetworkSettings"]["Networks"]] in its iteration order. *)
Record Container := {
  name : string;
  id : string;
  labels : gmap string string;
  networks : list (string * Network)
}.

End Docker.

Module nserver.

Record Query := { name : string; type : string }.

(** The records [nserver.A(name, ip, ttl=ttl)] and
    [nserver.AAAA(name, ip, ttl=ttl)] once the library has built them;
    whether it builds them is [nserver_A] and [nserver_AAAA] of the host. *)
Inductive Record_ :=
| A (name ip : string) (ttl : Z)
| AAAA (name ip : string) (ttl : Z).

Record Response := { answers : list Record_ }.

Definition ttl_of (r : Record_) : Z :=
  match r with A _ _ t => t | AAAA _ _ t => t end.

Definition ip_of (r : Record_) : string :=
  match r with A _ i _ => i | AAAA _ i _ => i end.

End nserver.

Record CachedContainer := {
  container_ids : gmap string string;
  container_name : option string;
  project_name : string;
  ipv4_addresses : list string;
  ipv6_addresses : list string;
  last_updated : Q
}.

(** ** The application object and its monad *)

Record Application := {
  container_cache : gmap string CachedContainer;
  clock_reads : nat;
  docker_calls : nat;
  info_log : list string
}.

(** [Application.setup]: the cache starts empty. *)
Definition setup : Application :=
  {| container_cache := ∅; clock_reads := 0; docker_calls := 0; info_log := [] |}.

(** The exceptions that can end a call: the runtime's, the [KeyError] of a
    mapping read at a missing key, and an exception of class [kind] raised
    inside the DNS library. *)
Inductive Exn :=
| DockerException
| KeyError (key : string)
| LibraryError (kind message : string).

Inductive Outcome (T : Type) :=
| Returned (v : T)
| Raised (e : Exn).
Arguments Returned {T} v.
Arguments Raised {T} e.

Definition M (T : Type) : Type := Application → Outcome T * Application.

Definition ret {T} (v : T) : M T := λ s, (Returned v, s).

Definition raise {T} (e : Exn) : M T := λ s, (Raised e, s).

Definition bind {T U} (m : M T) (k : T → M U) : M U :=
  λ s, match m s with
       | (Returned v, s') => k v s'
       | (Raised e, s') => (Raised e, s')
       end.

Declare Scope app_scope.
Delimit Scope app_scope with app.
Notation "'let*' x := m 'in' k" := (bind m (λ x, k))
  (at level 10, x binder, m at level 100, k at level 200) : app_scope.
Notation "m ;;; k" := (bind m (λ _, k))
  (at level 100, k at level 200, right associativity) : app_scope.
Local Open Scope app_scope.

(** The four ways the program changes the application object. *)
Definition with_cache (c : gmap string CachedContainer) (s : Application) : Application :=
  {| container_cache := c; clock_reads := clock_reads s;
     docker_calls := docker_calls s; info_log := info_log s |}.

Definition logged (msg : string) (s : Application) : Application :=
  {| container_cache := container_cache s; clock_reads := clock_reads s;
     docker_calls := docker_calls s; info_log := info_log s ++ [msg] |}.

Definition ticked (s : Application) : Application :=
  {| container_cache := container_cache s; clock_reads := S (clock_reads s);
     docker_calls := docker_calls s; info_log := info_log s |}.

Definition called (s : Application) : Application :=
  {| container_cache := container_cache s; clock_reads := clock_reads s;
     docker_calls := S (docker_calls s); info_log := info_log s |}.

Definition get_container_cache : M (gmap string CachedContainer) :=
  λ s, (Returned (container_cache s), s).

(** [self.container_cache = c] *)
Definition set_container_cache (c : gmap string CachedContainer) : M unit :=
  λ s, (Returned tt, with_cache c s).

(** [self.info(msg)] *)
Definition info (msg : string) : M unit :=
  λ s, (Returned tt, logged msg s).

(** [for x in xs: acc = body(acc, x)], stopping at the first exception. *)
Fixpoint for_each {T S} (body : S → T → M S) (acc : S) (xs : list T) : M S :=
  match xs with
  | [] => ret acc
  | x :: xs' => let* acc' := body acc x in for_each body acc' xs'
  end.

(** ** Python helpers *)

(** [f"{v}"] for a value that is a string or [None]. *)
Definition format_value (v : option string) : string :=
  match v with Some s => s | None => "None" end.

(** [int(x)] on a float: truncation towards zero. *)
Definition int (x : Q) : Z := Z.quot (Qnum x) (Z.pos (Qden x)).

(** Powers of two as rationals. *)
Definition Qpow2 (k : Z) : Q :=
  match k with
  | Z.neg p => 1 # (2 ^ p)%positive
  | _ => inject_Z (2 ^ k)
  end.

(** The largest [k] with [2^k <= n/d]. *)
Definition floor_log2 (n d : positive) : Z :=
  let k := Z.log2 (Z.pos n) - Z.log2 (Z.pos d) in
  if Qle_bool (Qpow2 k) (Z.pos n # d) then k else k - 1.

(** The integer nearest to a rational that is not negative, the even one
    of the two when it lies half way. *)
Definition round_half_even (q : Q) : Z :=
  let f := Qfloor q in
  match (q - inject_Z f ?= 1 # 2)%Q with
  | Lt => f
  | Gt => f + 1
  | Eq => if Z.even f then f else f + 1
  end.

(** Rounding [n/d] to 53 significant bits: scaled by a power of two into
    the interval from 2^52 to 2^53, rounded to an integer, scaled back. *)
Definition round64_pos (n d : positive) : Q :=
  let e := floor_log2 n d - 52 in
  Qred (inject_Z (round_half_even ((Z.pos n # d) / Qpow2 e)) * Qpow2 e).

(** The binary64 number nearest to a rational, ties to even. *)
Definition round64 (x : Q) : Q :=
  match Qnum x with
  | Z0 => 0
  | Z.pos n => round64_pos n (Qden x)
  | Z.neg n => - round64_pos n (Qden x)
  end.

(** [x - y] on floats. *)
Definition fsub (x y : Q) : Q := round64 (x - y).
Arguments fsub : simpl never.

(** [60 - int(now - container.last_updated)] *)
Definition ttl_at (now : Q) (container : CachedContainer) : Z :=
  60 - int (fsub now (last_updated container)).

(** [x > y] on floats. *)
Definition gt (x y : Q) : bool := negb (Qle_bool x y).

(** [if s:] on a string. *)
Definition truthy (s : string) : bool :=
  match s with EmptyString => false | String _ _ => true end.

(** [d[k]] on a label mapping. *)
Definition getitem (d : gmap string string) (k : string) : M string :=
  match d !! k with Some v => ret v | None => raise (KeyError k) end.

(** ** The host: clock, container runtime and settings *)

(** [nserver_A name ip ttl] is what [nserver.A(name, ip, ttl=ttl)] raises,
    [None] when it builds the record; likewise [nserver_AAAA]. *)
Record Host := {
  time_time : nat → Q;
  containers_list : nat → option (list Docker.Container);
  ROOT_DOMAIN : string;
  nserver_A : string → string → Z → option Exn;
  nserver_AAAA : string → string → Z → option Exn
}.

(** [for ip in ips: answers.append(build(ip))], where building may raise. *)
Fixpoint append_records (refusal : string → option Exn) (build : string → nserver.Record_)
    (ips : list string) (answers : list nserver.Record_) : Outcome (list nserver.Record_) :=
  match ips with
  | [] => Returned answers
  | ip :: ips' =>
      match refusal ip with
      | Some e => Raised e
      | None => append_records refusal build ips' (answers ++ [build ip])
      end
  end.

(** What the rule hands back once the response is filled, or not. *)
Definition served (o : Outcome nserver.Response) : Outcome (option nserver.Response) :=
  match o with
  | Returned response => Returned (Some response)
  | Raised e => Raised e
  end.

Section App.

Variable host : Host.

(** [time.time()] *)
Definition time : M Q :=
  λ s, (Returned (time_time host (clock_reads s)), ticked s).

(** [self.docker.containers.list()] *)
Definition docker_containers_list : M (list Docker.Container) :=
  λ s, match containers_list host (docker_calls s) with
       | Some cs => (Returned cs, called s)
       | None => (Raised DockerException, called s)
       end.

(** [f"{container_name}.{project_name}.{self.nserver.settings.ROOT_DOMAIN}"] *)
Definition cache_key_of (container_name : option string) (project_name : string) : string :=
  format_value container_name +:+ "." +:+ project_name +:+ "." +:+ ROOT_DOMAIN host.

(** The loop over [Networks.values()]: the record is the object held by
    the cache under construction, so appending to its lists updates the
    cache entry. *)
Definition add_network (cc : CachedContainer) (network : string * Docker.Network)
  : CachedContainer :=
  let ipv4_address := default "" (Docker.IPAddress network.2) in
  let cc :=
    if truthy ipv4_address
    then {| container_ids := container_ids cc; container_name := container_name cc;
            project_name := project_name cc;
            ipv4_addresses := ipv4_addresses cc ++ [ipv4_address];
            ipv6_addresses := ipv6_addresses cc; last_updated := last_updated cc |}
    else cc in
  let ipv6_address := default "" (Docker.GlobalIPv6Address network.2) in
  if truthy ipv6_address
  then {| container_ids := container_ids cc; container_name := container_name cc;
          project_name := project_name cc;
          ipv4_addresses := ipv4_addresses cc;
          ipv6_addresses := ipv6_addresses cc ++ [ipv6_address];
          last_updated := last_updated cc |}
  else cc.

(** The body of the loop of [populate_cache] (lines 195-230), for one
    container: skip it without the project label; otherwise find or create
    the entry under its key, record its ordinal, append its addresses. *)
Definition populate_container (cache : gmap string CachedContainer)
    (container : Docker.Container) : M (gmap string CachedContainer) :=
  info ("cache: checking " +:+ Docker.name container) ;;;
  let container_labels := Docker.labels container in
  match container_labels !! "com.docker.compose.project" with
  | None => ret cache
  | Some project_name_ =>
      let container_name_ := container_labels !! "com.docker.compose.service" in
      let cache_key := cache_key_of container_name_ project_name_ in
      let* entry :=
        match cache !! cache_key with
        | Some cached_container => ret (cached_container, cache)
        | None =>
            let* t := time in
            let cached_container :=
              {| container_ids := ∅; container_name := container_name_;
                 project_name := project_name_;
                 ipv4_addresses := []; ipv6_addresses := [];
                 last_updated := t |} in
            ret (cached_container, <[cache_key := cached_container]> cache)
        end in
      let* number := getitem container_labels "com.docker.compose.container-number" in
      let cached_container :=
        {| container_ids := <[number := Docker.id container]> (container_ids entry.1);
           container_name := container_name entry.1;
           project_name := project_name entry.1;
           ipv4_addresses := ipv4_addresses entry.1;
           ipv6_addresses := ipv6_addresses entry.1;
           last_updated := last_updated entry.1 |} in
      ret (<[cache_key := foldl add_network cached_container (Docker.networks container)]>
             entry.2)
  end.

(** [Application.populate_cache] (lines 190-233): the new mapping is built
    aside and installed by the last statement only. *)
Definition populate_cache : M unit :=
  info "populating cache" ;;;
  let* containers := docker_containers_list in
  let* cache := for_each populate_container ∅ containers in
  set_container_cache cache.

(** The response filled from one cache entry when the library builds
    every record: an A answer per IPv4 address when the query type is "A",
    an AAAA answer per IPv6 address otherwise. *)
Definition response_for (query : nserver.Query) (entry : CachedContainer) (ttl : Z)
  : nserver.Response :=
  if String.eqb (nserver.type query) "A"
  then {| nserver.answers :=
            map (λ ip, nserver.A (nserver.name query) ip ttl) (ipv4_addresses entry) |}
  else {| nserver.answers :=
            map (λ ip, nserver.AAAA (nserver.name query) ip ttl) (ipv6_addresses entry) |}.

(** Lines 177-184: the response is filled record by record, and the first
    record the library refuses ends the rule with the library's exception. *)
Definition respond (query : nserver.Query) (entry : CachedContainer) (ttl : Z)
  : Outcome nserver.Response :=
  if String.eqb (nserver.type query) "A"
  then
    match append_records (λ ip, nserver_A host (nserver.name query) ip ttl)
            (λ ip, nserver.A (nserver.name query) ip ttl) (ipv4_addresses entry) [] with
    | Returned answers => Returned {| nserver.answers := answers |}
    | Raised e => Raised e
    end
  else
    match append_records (λ ip, nserver_AAAA host (nserver.name query) ip ttl)
            (λ ip, nserver.AAAA (nserver.name query) ip ttl) (ipv6_addresses entry) [] with
    | Returned answers => Returned {| nserver.answers := answers |}
    | Raised e => Raised e
    end.

(** The entry is read again from [self.container_cache[query.name]]. *)
Definition answer (query : nserver.Query) (ttl : Z) : M nserver.Response :=
  let* cache := get_container_cache in
  match cache !! nserver.name query with
  | None => raise (KeyError (nserver.name query))
  | Some entry => λ s, (respond query entry ttl, s)
  end.

(** The rule of [Application.attach_rules] (lines 160-186). *)
Definition compose_project_rule (query : nserver.Query) : M (option nserver.Response) :=
  let* cache := get_container_cache in
  (match cache !! nserver.name query with
   | None => populate_cache
   | Some _ => ret tt
   end) ;;;
  let* cache := get_container_cache in
  match cache !! nserver.name query with
  | Some container =>
      let* now := time in
      let* fresh :=
        if gt (fsub now (last_updated container)) 60%Q
        then
          populate_cache ;;;
          let* cache := get_container_cache in
          ret (cache !! nserver.name query)
        else ret (Some container) in
      match fresh with
      | None => ret None
      | Some container =>
          let ttl := ttl_at now container in
          let* response := answer query ttl in
          ret (Some response)
      end
  | None => ret None
  end.

End App.

Arguments respond : simpl never.

(** ** Vocabulary for the statements *)

Section Vocabulary.

Variable host : Host.

(** The composite key a container is filed under, if it has the project
    label. *)
Definition key_of (c : Docker.Container) : option string :=
  match Docker.labels c !! "com.docker.compose.project" with
  | Some project => Some (cache_key_of host (Docker.labels c !! "com.docker.compose.service") project)
  | None => None
  end.

(** The non-empty addresses of a list of network attachments, in order. *)
Definition ipv4_of (nets : list (string * Docker.Network)) : list string :=
  nets ≫= (λ n, let a := default "" (Docker.IPAddress n.2) in
                 if truthy a then [a] else []).

Definition ipv6_of (nets : list (string * Docker.Network)) : list string :=
  nets ≫= (λ n, let a := default "" (Docker.GlobalIPv6Address n.2) in
                 if truthy a then [a] else []).

(** The containers of a snapshot filed under key [k]. *)
Definition members (k : string) (cs : list Docker.Container) : list Docker.Container :=
  filter (λ c, key_of c = Some k) cs.

(** The host as it would be if the runtime reported only the containers
    that carry the project label. *)
Definition managed_only : Host :=
  {| time_time := time_time host;
     containers_list := λ n,
       filter (λ c, is_Some (Docker.labels c !! "com.docker.compose.project"))
         <$> containers_list host n;
     ROOT_DOMAIN := ROOT_DOMAIN host;
     nserver_A := nserver_A host;
     nserver_AAAA := nserver_AAAA host |}.

(** The rule applied to one query after the other on the same application
    object; an exception ends the query it was raised in. *)
Fixpoint serve (queries : list nserver.Query) (s : Application)
  : list (Outcome (option nserver.Response)) * Application :=
  match queries with
  | [] => ([], s)
  | q :: qs =>
      let r := compose_project_rule host q s in
      let rs := serve qs r.2 in
      (r.1 :: rs.1, rs.2)
  end.

End Vocabulary.

Definition ipv4_at (cache : gmap string CachedContainer) (k : string) : list string :=
  from_option ipv4_addresses [] (cache !! k).

Definition ipv6_at (cache : gmap string CachedContainer) (k : string) : list string :=
  from_option ipv6_addresses [] (cache !! k).

(** What of the application object the program itself can read back: all
    but the log. *)
Definition observable (s : Application) : gmap string CachedContainer * nat * nat :=
  (container_cache s, clock_reads s, docker_calls s).

(** Two computations that agree on outcome and on the observable state,
    from states that agree on the observable state. *)
Definition sim {T} (m1 m2 : M T) : Prop :=
  ∀ s1 s2, observable s1 = observable s2 →
    (m1 s1).1 = (m2 s2).1 ∧ observable (m1 s1).2 = observable (m2 s2).2.

(** The entry the rule serves from, by query type: [ipv4_addresses] for
    "A", [ipv6_addresses] otherwise. *)
Definition matching_addresses (query : nserver.Query) (entry : CachedContainer) : list string :=
  if String.eqb (nserver.type query) "A" then ipv4_addresses entry else ipv6_addresses entry.

(** What the library raises for one answer to the query, if anything. *)
Definition refusal (host : Host) (query : nserver.Query) (ip : string) (ttl : Z) : option Exn :=
  if String.eqb (nserver.type query) "A"
  then nserver_A host (nserver.name query) ip ttl
  else nserver_AAAA host (nserver.name query) ip ttl.

(** The library builds every answer to the query from these addresses. *)
Definition accepted (host : Host) (query : nserver.Query) (ips : list string) (ttl : Z) : Prop :=
  ∀ ip, ip ∈ ips → refusal host query ip ttl = None.

(** ** Sample data: the compose project "shop" under the root domain "dcdc" *)

Module Sample.

Definition labelled (project service number : option string) : gmap string string :=
  from_option (λ v, {[ "com.docker.compose.project" := v ]}) ∅ project
  ∪ from_option (λ v, {[ "com.docker.compose.service" := v ]}) ∅ service
  ∪ from_option (λ v, {[ "com.docker.compose.container-number" := v ]}) ∅ number.

Definition attachment (v4 v6 : option string) : string * Docker.Network :=
  ("shop_default", {| Docker.IPAddress := v4; Docker.GlobalIPv6Address := v6 |}).

Definition web1 : Docker.Container :=
  {| Docker.name := "shop-web-1"; Docker.id := "1a";
     Docker.labels := labelled (Some "shop") (Some "web") (Some "1");
     Docker.networks := [attachment (Some "10.0.0.5") (Some "")] |}.

Definition web2 : Docker.Container :=
  {| Docker.name := "shop-web-2"; Docker.id := "2b";
     Docker.labels := labelled (Some "shop") (Some "web") (Some "2");
     Docker.networks := [attachment (Some "10.0.0.6") (Some "fd00::6")] |}.

(** Started by hand: no compose labels at all. *)
Definition stray : Docker.Container :=
  {| Docker.name := "stray"; Docker.id := "3c";
     Docker.labels := ∅;
     Docker.networks := [attachment (Some "172.17.0.2") None] |}.

Definition no_service : Docker.Container :=
  {| Docker.name := "shop-x-1"; Docker.id := "4d";
     Docker.labels := labelled (Some "shop") None (Some "1");
     Docker.networks := [attachment (Some "10.0.0.7") None] |}.

Definition empty_service : Docker.Container :=
  {| Docker.name := "shop-y-1"; Docker.id := "5e";
     Docker.labels := labelled (Some "shop") (Some "") (Some "1");
     Docker.networks := [attachment (Some "10.0.0.8") None] |}.

Definition no_number : Docker.Container :=
  {| Docker.name := "shop-z"; Docker.id := "6f";
     Docker.labels := labelled (Some "shop") (Some "web") None;
     Docker.networks := [attachment (Some "10.0.0.9") None] |}.

(** A host whose runtime answers every call the same way, and whose DNS
    library builds every record it is asked for. *)
Definition host_of (clock : nat → Q) (snapshot : option (list Docker.Container)) : Host :=
  {| time_time := clock; containers_list := λ _, snapshot; ROOT_DOMAIN := "dcdc";
     nserver_A := λ _ _ _, None; nserver_AAAA := λ _ _ _, None |}.

Definition query_A : nserver.Query :=
  {| nserver.name := "web.shop.dcdc"; nserver.type := "A" |}.

Definition query_AAAA : nserver.Query :=
  {| nserver.name := "web.shop.dcdc"; nserver.type := "AAAA" |}.

(** The entry of [web1] as built at time 100. *)
Definition web_entry : CachedContainer :=
  {| container_ids := {[ "1" := "1a" ]}; container_name := Some "web";
     project_name := "shop"; ipv4_addresses := ["10.0.0.5"]; ipv6_addresses := [];
     last_updated := 100 |}.

(** The same entry as built at time [t]. *)
Definition web_entry_at (t : Q) : CachedContainer :=
  {| container_ids := {[ "1" := "1a" ]}; container_name := Some "web";
     project_name := "shop"; ipv4_addresses := ["10.0.0.5"]; ipv6_addresses := [];
     last_updated := t |}.

(** An entry with IPv6 addresses only. *)
Definition v6_entry : CachedContainer :=
  {| container_ids := {[ "1" := "1a" ]}; container_name := Some "web";
     project_name := "shop"; ipv4_addresses := []; ipv6_addresses := ["fd00::5"];
     last_updated := 100 |}.

Definition serving (entry : CachedContainer) : Application :=
  {| container_cache := {[ "web.shop.dcdc" := entry ]};
     clock_reads := 0; docker_calls := 0; info_log := [] |}.

(** A runtime that reports three containers, the clock standing at 100. *)
Definition three_containers : Host :=
  host_of (λ _, 100%Q) (Some [web1; stray; web2]).

(** The same runtime and clock behind a library that builds no A record
    for the address "bogus". *)
Definition strict_host_of (clock : nat → Q) (snapshot : option (list Docker.Container))
  : Host :=
  {| time_time := clock; containers_list := λ _, snapshot; ROOT_DOMAIN := "dcdc";
     nserver_A := λ _ ip _,
       if String.eqb ip "bogus"
       then Some (LibraryError "ValueError" "bogus")
       else None;
     nserver_AAAA := λ _ _ _, None |}.

(** An entry whose second IPv4 address is one the library refuses. *)
Definition bogus_entry : CachedContainer :=
  {| container_ids := {[ "1" := "1a" ]}; container_name := Some "web";
     project_name := "shop"; ipv4_addresses := ["10.0.0.5"; "bogus"];
     ipv6_addresses := []; last_updated := 100 |}.

(** A clock that reads [t0] first and [t1] from then on. *)
Definition clock_jump (t0 t1 : Q) : nat → Q :=
  λ n, match n with O => t0 | S _ => t1 end.

End Sample.

(** ** The rest of the module: interface addresses and server settings *)

Module netifaces.

(** What [netifaces] reports: the interface names, and per interface a
    mapping from address family to the links of that family, each link a
    mapping with keys such as "addr" and "netmask".  [AF_INET] is the
    library's constant for IPv4. *)
Record Report := {
  AF_INET : Z;
  interfaces : list string;
  ifaddresses : string → gmap Z (list (gmap string string))
}.

End netifaces.

(** [netifaces.ifaddresses(interface).get(netifaces.AF_INET, [])] *)
Definition inet_links (report : netifaces.Report) (interface : string)
  : list (gmap string string) :=
  default [] (netifaces.ifaddresses report interface !! netifaces.AF_INET report).

(** The inner loop of [get_available_ips]: [link["addr"]] raises when the
    link has no such key. *)
Fixpoint append_links (interface : string) (links : list (gmap string string))
    (ip_list : list string) : Outcome (list string) :=
  match links with
  | [] => Returned ip_list
  | link :: links' =>
      match link !! "addr" with
      | None => Raised (KeyError "addr")
      | Some addr =>
          append_links interface links' (ip_list ++ [addr +:+ " (" +:+ interface +:+ ")"])
      end
  end.

(** The outer loop: [ifaddresses(interface).get(AF_INET, [])]. *)
Fixpoint append_interfaces (report : netifaces.Report) (names : list string)
    (ip_list : list string) : Outcome (list string) :=
  match names with
  | [] => Returned ip_list
  | interface :: names' =>
      match append_links interface (inet_links report interface) ip_list with
      | Returned ip_list' => append_interfaces report names' ip_list'
      | Raised e => Raised e
      end
  end.

(** [get_available_ips] (lines 29-39). *)
Definition get_available_ips (report : netifaces.Report) : Outcome (list string) :=
  match append_interfaces report (netifaces.interfaces report) [] with
  | Returned ip_list => Returned (ip_list ++ ["0.0.0.0 (all above)"])
  | Raised e => Raised e
  end.

(** [self.args] as [get_argument_parser] declares it. *)
Record Args := {
  args_host : string;
  args_port : Z;
  args_transport : string;
  args_root_domain : string;
  args_ips : bool
}.

(** [server.settings] as [get_nserver] fills it. *)
Record Settings := {
  SERVER_TYPE : string;
  SERVER_ADDRESS : string;
  SERVER_PORT : Z;
  CONSOLE_LOG_LEVEL : Z;
  SETTINGS_ROOT_DOMAIN : string
}.

(** [logging.WARNING] *)
Definition logging_WARNING : Z := 30.

Definition is_dot (c : Ascii.ascii) : bool := Ascii.eqb c "."%char.

(** [s.lstrip(".")] *)
Fixpoint lstrip (s : string) : string :=
  match s with
  | EmptyString => EmptyString
  | String c s' => if is_dot c then lstrip s' else s
  end.

(** [s.rstrip(".")] *)
Fixpoint rstrip (s : string) : string :=
  match s with
  | EmptyString => EmptyString
  | String c s' =>
      match rstrip s' with
      | EmptyString => if is_dot c then EmptyString else String c EmptyString
      | r => String c r
      end
  end.

(** [s.strip(".")]: dots are removed at both ends. *)
Definition strip (s : string) : string := rstrip (lstrip s).

(** [Application.get_nserver] (lines 143-156): the settings of the server,
    and [self.args] with its [root_domain] overwritten by the stripped one. *)
Definition get_nserver (args : Args) : Settings * Args :=
  let root_domain := strip (args_root_domain args) in
  ({| SERVER_TYPE := args_transport args;
      SERVER_ADDRESS := args_host args;
      SERVER_PORT := args_port args;
      CONSOLE_LOG_LEVEL := logging_WARNING;
      SETTINGS_ROOT_DOMAIN := root_domain |},
   {| args_host := args_host args; args_port := args_port args;
      args_transport := args_transport args;
      args_root_domain := root_domain; args_ips := args_ips args |}).

(** The pattern [attach_rules] registers the rule under (line 159). *)
Definition rule_pattern (settings : Settings) : string :=
  "*.*." +:+ SETTINGS_ROOT_DOMAIN settings.

(** The first and the last character of a string. *)
Definition first_char (s : string) : option Ascii.ascii :=
  match s with EmptyString => None | String c _ => Some c end.

Fixpoint last_char (s : string) : option Ascii.ascii :=
  match s with
  | EmptyString => None
  | String c EmptyString => Some c
  | String _ s' => last_char s'
  end.

(** ** More vocabulary: ordinals, stamps and clocks *)

(** The ordinal-to-id map under key [k]. *)
Definition ids_at (cache : gmap string CachedContainer) (k : string) : gmap string string :=
  from_option container_ids ∅ (cache !! k).

(** What a list of containers writes into an ordinal-to-id map, in order. *)
Definition record_ids (m : gmap string string) (cs : list Docker.Container)
  : gmap string string :=
  foldl (λ m c,
           match Docker.labels c !! "com.docker.compose.container-number" with
           | Some n => <[n := Docker.id c]> m
           | None => m
           end) m cs.

(** The containers of a list that carry ordinal [n]. *)
Definition with_ordinal (n : string) (cs : list Docker.Container) : list Docker.Container :=
  filter (λ c, Docker.labels c !! "com.docker.compose.container-number" = Some n) cs.

(** Every entry stands under the key made of its own names. *)
Definition keyed (host : Host) (cache : gmap string CachedContainer) : Prop :=
  ∀ k e, cache !! k = Some e → k = cache_key_of host (container_name e) (project_name e).

(** Every entry of [cache] was stamped by one of the clock readings
    numbered from [lo] up to, not including, [hi]. *)
Definition stamped_between (host : Host) (lo hi : nat) (cache : gmap string CachedContainer)
  : Prop :=
  ∀ k e, cache !! k = Some e →
         ∃ i, (lo ≤ i < hi)%nat ∧ last_updated e = time_time host i.

(** The installed cache holds only entries stamped by readings already
    taken. *)
Definition stamped (host : Host) (s : Application) : Prop :=
  stamped_between host 0 (clock_reads s) (container_cache s).

(** Whether a string has a dot in it. *)
Fixpoint has_dot (s : string) : bool :=
  match s with
  | EmptyString => false
  | String c s' => is_dot c || has_dot s'
  end.

(** A clock that never runs backwards. *)
Definition monotone (clock : nat → Q) : Prop :=
  ∀ i j, (i ≤ j)%nat → (clock i <= clock j)%Q.

(** ** Sample data: a machine with a loopback and one ethernet interface *)

Module SampleNet.

Definition AF_INET : Z := 2.
Definition AF_INET6 : Z := 10.

Definition links_of (interface : string) : gmap Z (list (gmap string string)) :=
  if String.eqb interface "lo"
  then {[ AF_INET := [ {[ "addr" := "127.0.0.1"; "netmask" := "255.0.0.0" ]} ] ]}
  else if String.eqb interface "eth0"
  then {[ AF_INET := [ {[ "addr" := "192.168.1.7"; "netmask" := "255.255.255.0" ]} ];
          AF_INET6 := [ {[ "addr" := "fe80::1" ]} ] ]}
  else ∅.

(** "tun0" is up but has no IPv4 address. *)
Definition machine : netifaces.Report :=
  {| netifaces.AF_INET := AF_INET;
     netifaces.interfaces := ["lo"; "eth0"; "tun0"];
     netifaces.ifaddresses := links_of |}.

(** A report in which one IPv4 link carries a netmask but no address. *)
Definition broken : netifaces.Report :=
  {| netifaces.AF_INET := AF_INET;
     netifaces.interfaces := ["lo"; "eth0"];
     netifaces.ifaddresses := λ interface,
       if String.eqb interface "eth0"
       then {[ AF_INET := [ {[ "netmask" := "255.255.255.0" ]} ] ]}
       else links_of interface |}.

Definition args : Args :=
  {| args_host := "localhost"; args_port := 9953; args_transport := "UDPv4";
     args_root_domain := "..docker.local."; args_ips := false |}.

End SampleNet.

(** ** Basic facts *)

Lemma gt_true (x y : Q) : gt x y = true ↔ (y < x)%Q.
Proof.
  unfold gt. rewrite negb_true_iff.
  destruct (Qle_bool x y) eqn:E.
  - apply Qle_bool_iff in E. split; [discriminate|]. intros H. exfalso.
    exact (Qlt_not_le _ _ H E).
  - split; [|reflexivity]. intros _. apply Qnot_le_lt. intros H.
    apply Qle_bool_iff in H. congruence.
Qed.

Lemma gt_false (x y : Q) : gt x y = false ↔ (x <= y)%Q.
Proof.
  unfold gt. rewrite negb_false_iff. apply Qle_bool_iff.
Qed.

Lemma int_floor (x : Q) : (0 <= x)%Q → int x = Qfloor x.
Proof.
  destruct x as [n d]. unfold Qle, int, Qfloor. simpl. intros H.
  apply Z.quot_div_nonneg; lia.
Qed.

(** Rounding and float subtraction keep the sign. *)
Lemma Qpow2_pos k : (0 < Qpow2 k)%Q.
Proof.
  destruct k as [|p|p]; cbn; [reflexivity| |reflexivity].
  unfold Qlt. cbn. pose proof (Z.pow_pos_nonneg 2 (Z.pos p)). lia.
Qed.

Lemma round_half_even_nonneg q : (0 <= q)%Q → (0 ≤ round_half_even q)%Z.
Proof.
  intros Hq. pose proof (Qfloor_resp_le _ _ Hq) as Hf. change (Qfloor 0) with 0 in Hf.
  unfold round_half_even.
  destruct (q - inject_Z (Qfloor q) ?= 1 # 2)%Q; [destruct (Z.even _)| |]; lia.
Qed.

Lemma round64_pos_nonneg n d : (0 <= round64_pos n d)%Q.
Proof.
  unfold round64_pos. rewrite Qred_correct.
  apply Qmult_le_0_compat; [|apply Qlt_le_weak, Qpow2_pos].
  change 0%Q with (inject_Z 0). rewrite <- Zle_Qle. apply round_half_even_nonneg.
  apply Qle_shift_div_l; [apply Qpow2_pos|]. by rewrite Qmult_0_l.
Qed.

Lemma round64_nonneg x : (0 <= x)%Q → (0 <= round64 x)%Q.
Proof.
  destruct x as [[|n|n] d]; unfold round64; cbn [Qnum Qden]; intros H.
  - done.
  - apply round64_pos_nonneg.
  - by exfalso.
Qed.

Lemma round64_nonpos x : (x <= 0)%Q → (round64 x <= 0)%Q.
Proof.
  destruct x as [[|n|n] d]; unfold round64; cbn [Qnum Qden]; intros H.
  - done.
  - by exfalso.
  - pose proof (round64_pos_nonneg n d). lra.
Qed.

(** Rounding does not carry a number across 60, which is a double. *)
Lemma round_half_even_le q (N : Z) : (q <= inject_Z N)%Q → (round_half_even q ≤ N)%Z.
Proof.
  intros Hq. pose proof (Qfloor_resp_le _ _ Hq) as Hf. rewrite Qfloor_Z in Hf.
  unfold round_half_even.
  destruct (Z.eq_dec (Qfloor q) N) as [Heq|Hne].
  - rewrite Heq. assert (q - inject_Z N < 1 # 2)%Q as Hlt by lra.
    assert ((q - inject_Z N ?= 1 # 2)%Q = Lt) as -> by (by apply Qlt_alt). lia.
  - destruct (q - inject_Z (Qfloor q) ?= 1 # 2)%Q; [destruct (Z.even _)| |]; lia.
Qed.

Lemma floor_log2_le_5 n d : (Z.pos n # d <= 60)%Q → (floor_log2 n d ≤ 5)%Z.
Proof.
  intros H. unfold floor_log2.
  destruct (Qle_bool _ _) eqn:Hk.
  - apply Qle_bool_iff in Hk.
    destruct (Z.log2 (Z.pos n) - Z.log2 (Z.pos d)) as [|k|k] eqn:Hkk; [lia| |lia].
    destruct (Z_le_gt_dec (Z.pos k) 5) as [|Hgt]; [done|exfalso].
    cbn [Qpow2] in Hk.
    assert (2 ^ 6 ≤ 2 ^ Z.pos k)%Z as Hpow by (apply Z.pow_le_mono_r; lia).
    assert (inject_Z (2 ^ 6) <= inject_Z (2 ^ Z.pos k))%Q as HQ by (by rewrite <- Zle_Qle).
    change (inject_Z (2 ^ 6)) with 64%Q in HQ. lra.
  - unfold Qle in H. cbn in H.
    assert (Z.pos n ≤ 60 * Z.pos d)%Z as Hn by lia.
    pose proof (Z.log2_le_mono _ _ Hn) as Hlog.
    pose proof (Z.log2_mul_above 60 (Z.pos d) ltac:(lia) ltac:(lia)) as Hmul.
    change (Z.log2 60) with 5%Z in Hmul. lia.
Qed.

Lemma round64_le_60 x : (x <= 60)%Q → (round64 x <= 60)%Q.
Proof.
  intros Hx. destruct x as [[|n|n] d]; unfold round64; cbn [Qnum Qden].
  - done.
  - pose proof (floor_log2_le_5 n d Hx) as Hfl. unfold round64_pos. rewrite Qred_correct.
    destruct (floor_log2 n d - 52)%Z as [|e|e] eqn:He; [lia|lia|]. cbn [Qpow2].
    assert (round_half_even ((Z.pos n # d) / (1 # 2 ^ e)) ≤ 60 * Z.pos (2 ^ e))%Z as Hm.
    { apply round_half_even_le. apply Qle_shift_div_r; [reflexivity|].
      unfold Qle in *. cbn in *. nia. }
    unfold Qle. cbn. nia.
  - pose proof (round64_pos_nonneg n d). lra.
Qed.

Lemma fsub_le_60 x y : (x - y <= 60)%Q → (fsub x y <= 60)%Q.
Proof. apply round64_le_60. Qed.

Lemma fsub_gt_60 x y : (60 < fsub x y)%Q → (60 < x - y)%Q.
Proof.
  intros H. apply Qnot_le_lt. intros Hle. apply fsub_le_60 in Hle. lra.
Qed.

Lemma fsub_nonneg x y : (y <= x)%Q → (0 <= fsub x y)%Q.
Proof. intros H. apply round64_nonneg. lra. Qed.

Lemma fsub_nonpos x y : (x <= y)%Q → (fsub x y <= 0)%Q.
Proof. intros H. apply round64_nonpos. lra. Qed.

(** Nor does it carry a number across 1 or -1. *)
Lemma round_half_even_ge q (N : Z) : (inject_Z N <= q)%Q → (N ≤ round_half_even q)%Z.
Proof.
  intros Hq. pose proof (Qfloor_resp_le _ _ Hq) as Hf. rewrite Qfloor_Z in Hf.
  unfold round_half_even.
  destruct (q - inject_Z (Qfloor q) ?= 1 # 2)%Q; [destruct (Z.even _)| |]; lia.
Qed.

Lemma Qpow2_floor_log2 n d : (Qpow2 (floor_log2 n d) <= Z.pos n # d)%Q.
Proof.
  unfold floor_log2. destruct (Qle_bool _ _) eqn:Hk; [by apply Qle_bool_iff|]. clear Hk.
  pose proof (Z.log2_nonneg (Z.pos n)) as Ha. pose proof (Z.log2_nonneg (Z.pos d)) as Hb.
  pose proof (proj1 (Z.log2_spec (Z.pos n) ltac:(lia))) as Hn.
  pose proof (proj2 (Z.log2_spec (Z.pos d) ltac:(lia))) as Hd.
  rewrite <- Z.add_1_r in Hd.
  destruct (Z.log2 (Z.pos n) - Z.log2 (Z.pos d) - 1)%Z as [|k|k] eqn:Hk; cbn [Qpow2].
  - replace (Z.log2 (Z.pos n)) with (Z.log2 (Z.pos d) + 1)%Z in Hn by lia.
    unfold Qle. cbn. lia.
  - replace (Z.log2 (Z.pos n)) with (Z.pos k + (Z.log2 (Z.pos d) + 1))%Z in Hn by lia.
    rewrite Z.pow_add_r in Hn by lia.
    pose proof (Z.pow_pos_nonneg 2 (Z.pos k) ltac:(lia) ltac:(lia)).
    unfold Qle. cbn [Qnum Qden inject_Z]. nia.
  - replace (Z.log2 (Z.pos d) + 1)%Z with (Z.log2 (Z.pos n) + Z.pos k)%Z in Hd by lia.
    rewrite Z.pow_add_r in Hd by lia.
    pose proof (Z.pow_pos_nonneg 2 (Z.pos k) ltac:(lia) ltac:(lia)).
    unfold Qle. cbn [Qnum Qden]. rewrite Pos2Z.inj_pow. nia.
Qed.

Lemma floor_log2_nonneg n d : (1 <= Z.pos n # d)%Q → (0 ≤ floor_log2 n d)%Z.
Proof.
  intros H. unfold floor_log2.
  assert (Z.pos d ≤ Z.pos n)%Z as Hdn by (unfold Qle in H; cbn in H; lia).
  pose proof (Z.log2_le_mono _ _ Hdn) as Hlog.
  destruct (Qle_bool _ _) eqn:Hk; [lia|].
  destruct (Z.eq_dec (Z.log2 (Z.pos n) - Z.log2 (Z.pos d)) 0) as [Hz|]; [|lia].
  rewrite Hz in Hk. cbn [Qpow2] in Hk.
  assert (Qle_bool (inject_Z (2 ^ 0)) (Z.pos n # d) = true) as Ht
    by (by apply Qle_bool_iff).
  congruence.
Qed.

Lemma round64_pos_ge_1 n d : (1 <= Z.pos n # d)%Q → (1 <= round64_pos n d)%Q.
Proof.
  intros Hx. pose proof (floor_log2_nonneg n d Hx) as Hfl.
  pose proof (Qpow2_floor_log2 n d) as Hpow.
  unfold round64_pos. rewrite Qred_correct.
  destruct (floor_log2 n d - 52)%Z as [|e|e] eqn:He.
  - cbn [Qpow2]. change (inject_Z (2 ^ 0)) with 1%Q.
    assert (1 ≤ round_half_even ((Z.pos n # d) / 1))%Z as Hm.
    { apply round_half_even_ge. apply Qle_shift_div_l; [reflexivity|]. by rewrite Qmult_1_l. }
    unfold Qle. cbn. lia.
  - cbn [Qpow2].
    pose proof (Z.pow_pos_nonneg 2 (Z.pos e) ltac:(lia) ltac:(lia)) as Hpe.
    assert (1 ≤ round_half_even ((Z.pos n # d) / inject_Z (2 ^ Z.pos e)))%Z as Hm.
    { apply round_half_even_ge. apply Qle_shift_div_l.
      - change 0%Q with (inject_Z 0). rewrite <- Zlt_Qlt. lia.
      - rewrite Qmult_1_l. eapply Qle_trans; [|exact Hpow].
        destruct (floor_log2 n d) as [|k|k] eqn:Hk; [lia| |lia]. cbn [Qpow2].
        rewrite <- Zle_Qle. apply Z.pow_le_mono_r; lia. }
    rewrite <- inject_Z_mult. change 1%Q with (inject_Z 1). rewrite <- Zle_Qle. nia.
  - cbn [Qpow2].
    assert (Z.pos (2 ^ e) ≤ round_half_even ((Z.pos n # d) / (1 # 2 ^ e)))%Z as Hm.
    { apply round_half_even_ge. apply Qle_shift_div_l; [reflexivity|].
      unfold Qle in *. cbn in *. nia. }
    unfold Qle. cbn. nia.
Qed.

Lemma fsub_le_m1 x y : (x - y <= -1)%Q → (fsub x y <= -1)%Q.
Proof.
  unfold fsub. generalize (x - y)%Q. intros [[|n|n] d] H; unfold round64; cbn [Qnum Qden].
  - by exfalso.
  - by exfalso.
  - assert (1 <= Z.pos n # d)%Q as H1 by (unfold Qle in *; cbn in *; lia).
    pose proof (round64_pos_ge_1 n d H1). lra.
Qed.

Lemma int_le_m1 (x : Q) : (x <= -1)%Q → (int x ≤ -1)%Z.
Proof.
  destruct x as [n d]. unfold Qle, int. cbn. intros H.
  assert (Z.pos d ≤ - n)%Z as Hn by lia.
  replace n with (- (- n))%Z by lia. rewrite Z.quot_opp_l by lia.
  pose proof (Z.quot_le_mono (Z.pos d) (- n) (Z.pos d) ltac:(lia) Hn) as Hq.
  rewrite Z.quot_same in Hq by lia. lia.
Qed.

(** [fsub] on some doubles, against what Python prints: [60.1 - 0.1] is
    [60.0] though the exact difference is larger, [1.2 - 0.2] is [1.0]
    though the exact difference is smaller, [0.3 - 0.1] is
    [0.19999999999999998], and a difference that is a double is exact. *)
Example fsub_samples :
  fsub (8458323050155213 # 140737488355328) (3602879701896397 # 36028797018963968) == 60
  ∧ (60 < (8458323050155213 # 140737488355328) - (3602879701896397 # 36028797018963968))%Q
  ∧ fsub (5404319552844595 # 4503599627370496) (3602879701896397 # 18014398509481984) == 1
  ∧ fsub (5404319552844595 # 18014398509481984) (3602879701896397 # 36028797018963968)
    == 7205759403792793 # 36028797018963968
  ∧ fsub (7130316800515899 # 4194304) (7130316548853465 # 4194304) == 125831217 # 2097152
  ∧ fsub (201 # 2) 100 == 1 # 2
  ∧ round64 (9007199254740993 # 1) == 9007199254740992 # 1
  ∧ round64 (9007199254740995 # 1) == 9007199254740996 # 1.
Proof. repeat split. Qed.

(** Filling a response: what comes back, and when. *)
Lemma append_records_returned refusal build ips answers result :
  append_records refusal build ips answers = Returned result →
  result = answers ++ map build ips ∧ ∀ ip, ip ∈ ips → refusal ip = None.
Proof.
  revert answers. induction ips as [|ip ips IH]; intros answers; cbn [append_records].
  - intros [= <-]. split; [by rewrite app_nil_r|]. intros ip H. by apply elem_of_nil in H.
  - destruct (refusal ip) eqn:Hip; [discriminate|]. intros H.
    destruct (IH _ H) as [-> Hall]. split; [by rewrite <- app_assoc|].
    intros ip' [->|Hin]%elem_of_cons; [done|by apply Hall].
Qed.

Lemma append_records_accepted refusal build ips answers :
  (∀ ip, ip ∈ ips → refusal ip = None) →
  append_records refusal build ips answers = Returned (answers ++ map build ips).
Proof.
  revert answers. induction ips as [|ip ips IH]; intros answers Hall; cbn [append_records].
  - by rewrite app_nil_r.
  - rewrite Hall by apply list_elem_of_here.
    rewrite IH by (intros ip' H; apply Hall; by apply list_elem_of_further).
    by rewrite <- app_assoc.
Qed.

Lemma append_records_raised refusal build ips answers e :
  append_records refusal build ips answers = Raised e →
  ∃ ip, ip ∈ ips ∧ refusal ip = Some e.
Proof.
  revert answers. induction ips as [|ip ips IH]; intros answers; cbn [append_records];
    [discriminate|].
  destruct (refusal ip) as [e'|] eqn:Hip.
  - intros [= <-]. exists ip. split; [apply list_elem_of_here|done].
  - intros H. destruct (IH _ H) as (ip' & Hin & Hr). exists ip'.
    split; [by apply list_elem_of_further|done].
Qed.

Lemma respond_returned host q entry ttl response :
  respond host q entry ttl = Returned response →
  response = response_for q entry ttl
  ∧ accepted host q (matching_addresses q entry) ttl.
Proof.
  unfold respond, response_for, accepted, refusal, matching_addresses.
  destruct (String.eqb _ _);
    destruct (append_records _ _ _ _) as [answers|e] eqn:H; [|discriminate| |discriminate];
    intros [= <-]; by destruct (append_records_returned _ _ _ _ _ H) as [-> Hall].
Qed.

Lemma respond_accepted host q entry ttl :
  accepted host q (matching_addresses q entry) ttl →
  respond host q entry ttl = Returned (response_for q entry ttl).
Proof.
  unfold respond, response_for, accepted, refusal, matching_addresses.
  by destruct (String.eqb _ _); intros Hall; rewrite append_records_accepted.
Qed.

Lemma respond_raised host q entry ttl e :
  respond host q entry ttl = Raised e →
  ∃ ip, ip ∈ matching_addresses q entry ∧ refusal host q ip ttl = Some e.
Proof.
  unfold respond, refusal, matching_addresses.
  destruct (String.eqb _ _);
    destruct (append_records _ _ _ _) as [answers|e'] eqn:H; [discriminate| |discriminate|];
    intros [= <-]; by apply append_records_raised in H.
Qed.

Lemma respond_empty host q entry ttl :
  matching_addresses q entry = [] →
  respond host q entry ttl = Returned {| nserver.answers := [] |}.
Proof.
  unfold respond, matching_addresses. by destruct (String.eqb _ _); intros ->.
Qed.

Lemma add_networks_ipv4 nets cc :
  ipv4_addresses (foldl add_network cc nets) = ipv4_addresses cc ++ ipv4_of nets.
Proof.
  revert cc. induction nets as [|n nets IH]; intros cc; cbn [foldl].
  - by rewrite app_nil_r.
  - rewrite IH. unfold ipv4_of. rewrite bind_cons, app_assoc. f_equal.
    unfold add_network.
    destruct (truthy (default "" (Docker.IPAddress n.2)));
      destruct (truthy (default "" (Docker.GlobalIPv6Address n.2))); simpl;
      by rewrite ?app_nil_r.
Qed.

Lemma add_networks_ipv6 nets cc :
  ipv6_addresses (foldl add_network cc nets) = ipv6_addresses cc ++ ipv6_of nets.
Proof.
  revert cc. induction nets as [|n nets IH]; intros cc; cbn [foldl].
  - by rewrite app_nil_r.
  - rewrite IH. unfold ipv6_of. rewrite bind_cons, app_assoc. f_equal.
    unfold add_network.
    destruct (truthy (default "" (Docker.IPAddress n.2)));
      destruct (truthy (default "" (Docker.GlobalIPv6Address n.2))); simpl;
      by rewrite ?app_nil_r.
Qed.

Lemma add_networks_last_updated nets cc :
  last_updated (foldl add_network cc nets) = last_updated cc.
Proof.
  revert cc. induction nets as [|n nets IH]; intros cc; simpl; [done|].
  rewrite IH. unfold add_network.
  by destruct (truthy (default "" (Docker.IPAddress n.2)));
    destruct (truthy (default "" (Docker.GlobalIPv6Address n.2))).
Qed.

(** ** The cache builder *)

Section Builder.

Variable host : Host.

Lemma populate_container_unlabelled acc c s :
  Docker.labels c !! "com.docker.compose.project" = None →
  populate_container host acc c s
  = (Returned acc, logged ("cache: checking " +:+ Docker.name c) s).
Proof.
  intros H. unfold populate_container, bind, info. by rewrite H.
Qed.

(** One container changes at most the entry under its own key, by
    appending its addresses. *)
Lemma populate_container_step acc c s acc' s' :
  populate_container host acc c s = (Returned acc', s') →
  ∀ k,
    ipv4_at acc' k
    = ipv4_at acc k
      ++ (if decide (key_of host c = Some k) then ipv4_of (Docker.networks c) else [])
    ∧ ipv6_at acc' k
      = ipv6_at acc k
        ++ (if decide (key_of host c = Some k) then ipv6_of (Docker.networks c) else [])
    ∧ (is_Some (acc' !! k) ↔ is_Some (acc !! k) ∨ key_of host c = Some k).
Proof.
  unfold populate_container, key_of, bind, info, getitem, ret, raise, time.
  destruct (Docker.labels c !! "com.docker.compose.project") as [p|] eqn:Hp.
  2:{ intros [= <- <-] k. case_decide; [done|]. rewrite !app_nil_r. naive_solver. }
  set (key := cache_key_of host _ p).
  destruct (acc !! key) as [cc|] eqn:Hk;
    (destruct (Docker.labels c !! "com.docker.compose.container-number") as [n|];
     [|discriminate]); cbn -[cache_key_of]; intros [= <- <-] k; unfold ipv4_at, ipv6_at.
  - destruct (decide (key = k)) as [<-|Hne].
    + rewrite !decide_True by done. rewrite lookup_insert_eq, Hk. cbn.
      rewrite add_networks_ipv4, add_networks_ipv6. cbn. split_and!; [done|done|].
      split; eauto.
    + rewrite !decide_False by congruence. rewrite lookup_insert_ne by done.
      rewrite !app_nil_r. split_and!; [done|done|]. split; [eauto|].
      intros [?|?]; [done|congruence].
  - destruct (decide (key = k)) as [<-|Hne].
    + rewrite !decide_True by done. rewrite lookup_insert_eq, Hk. cbn.
      rewrite add_networks_ipv4, add_networks_ipv6. cbn. split_and!; [done|done|].
      split; eauto.
    + rewrite !decide_False by congruence. rewrite !lookup_insert_ne by done.
      rewrite !app_nil_r. split_and!; [done|done|]. split; [eauto|].
      intros [?|?]; [done|congruence].
Qed.

(** The loop touches neither the installed cache nor the runtime. *)
Lemma populate_container_frame acc c s :
  container_cache (populate_container host acc c s).2 = container_cache s
  ∧ docker_calls (populate_container host acc c s).2 = docker_calls s.
Proof.
  unfold populate_container, bind, info, getitem, ret, raise, time.
  destruct (Docker.labels c !! "com.docker.compose.project"); [|done].
  destruct (acc !! _);
    by destruct (Docker.labels c !! "com.docker.compose.container-number").
Qed.

Lemma for_each_populate_frame cs acc s :
  container_cache (for_each (populate_container host) acc cs s).2 = container_cache s
  ∧ docker_calls (for_each (populate_container host) acc cs s).2 = docker_calls s.
Proof.
  revert acc s. induction cs as [|c cs IH]; intros acc s; [done|].
  cbn [for_each]. unfold bind.
  pose proof (populate_container_frame acc c s) as [Hc Hd].
  destruct (populate_container host acc c s) as [[acc'|e] s1]; cbn in *; [|done].
  destruct (IH acc' s1) as [-> ->]. done.
Qed.

(** What a completed loop leaves under each key: the addresses of the
    containers filed under that key, in snapshot order, after whatever was
    there; and a key is present exactly when it was there or some container
    is filed under it. *)
Lemma for_each_populate_lookup cs acc s cache s' :
  for_each (populate_container host) acc cs s = (Returned cache, s') →
  ∀ k,
    ipv4_at cache k = ipv4_at acc k ++ (members host k cs ≫= λ c, ipv4_of (Docker.networks c))
    ∧ ipv6_at cache k = ipv6_at acc k ++ (members host k cs ≫= λ c, ipv6_of (Docker.networks c))
    ∧ (is_Some (cache !! k) ↔ is_Some (acc !! k) ∨ members host k cs ≠ []).
Proof.
  revert acc s. induction cs as [|c cs IH]; intros acc s.
  - intros [= <- <-] k. cbn. rewrite !app_nil_r. naive_solver.
  - cbn [for_each]. unfold bind.
    destruct (populate_container host acc c s) as [[acc'|e] s1] eqn:Hstep; [|discriminate].
    intros Hrest k.
    destruct (populate_container_step _ _ _ _ _ Hstep k) as (H4 & H6 & Hin).
    destruct (IH _ _ Hrest k) as (IH4 & IH6 & IHin).
    unfold members in *. rewrite filter_cons.
    rewrite IH4, IH6, H4, H6, IHin, Hin.
    destruct (decide (key_of host c = Some k)) as [Hk|Hk].
    + rewrite !bind_cons, !app_assoc. split_and!; [done|done|]. naive_solver.
    + rewrite !app_nil_r. split_and!; [done|done|]. naive_solver.
Qed.

(** [populate_cache], case by case. *)
Lemma populate_cache_unfold s :
  populate_cache host s
  = let s1 := called (logged "populating cache" s) in
    match containers_list host (docker_calls s) with
    | None => (Raised DockerException, s1)
    | Some cs =>
        match for_each (populate_container host) ∅ cs s1 with
        | (Returned cache, s2) => (Returned tt, with_cache cache s2)
        | (Raised e, s2) => (Raised e, s2)
        end
    end.
Proof.
  unfold populate_cache, bind, info, docker_containers_list, set_container_cache. cbn.
  destruct (containers_list host (docker_calls s)) as [cs|]; [|done].
  by destruct (for_each _ _ _ _) as [[?|?] ?].
Qed.

(** Every call of [populate_cache] is one call of the runtime. *)
Lemma populate_cache_calls s :
  docker_calls (populate_cache host s).2 = S (docker_calls s).
Proof.
  rewrite populate_cache_unfold. cbn.
  destruct (containers_list host (docker_calls s)) as [cs|]; [|done].
  pose proof (for_each_populate_frame cs ∅ (called (logged "populating cache" s))) as [_ Hd].
  by destruct (for_each _ _ _ _) as [[?|?] ?].
Qed.

(** A rebuild that raises leaves the installed cache as it was. *)
Lemma populate_cache_raised s e s' :
  populate_cache host s = (Raised e, s') → container_cache s' = container_cache s.
Proof.
  rewrite populate_cache_unfold. cbn.
  destruct (containers_list host (docker_calls s)) as [cs|]; [|by intros [= <- <-]].
  pose proof (for_each_populate_frame cs ∅ (called (logged "populating cache" s))) as [Hc _].
  destruct (for_each _ _ _ _) as [[?|?] ?]; [done|]. by intros [= <- <-].
Qed.

(** A rebuild that completes had a snapshot to work from, and installs
    what [for_each_populate_lookup] describes. *)
Lemma populate_cache_returned s s' :
  populate_cache host s = (Returned tt, s') →
  ∃ cs, containers_list host (docker_calls s) = Some cs
    ∧ ∀ k,
        ipv4_at (container_cache s') k = members host k cs ≫= (λ c, ipv4_of (Docker.networks c))
        ∧ ipv6_at (container_cache s') k = members host k cs ≫= (λ c, ipv6_of (Docker.networks c))
        ∧ (is_Some (container_cache s' !! k) ↔ members host k cs ≠ []).
Proof.
  rewrite populate_cache_unfold. cbn.
  destruct (containers_list host (docker_calls s)) as [cs|]; [|discriminate].
  destruct (for_each _ _ _ _) as [[cache|?] s2] eqn:Hloop; [|discriminate].
  intros [= <-]. exists cs. split; [done|]. intros k.
  destruct (for_each_populate_lookup _ _ _ _ _ Hloop k) as (H4 & H6 & Hin).
  cbn. rewrite H4, H6, Hin. unfold ipv4_at, ipv6_at. rewrite !lookup_empty. cbn.
  split_and!; [done|done|]. split; [|eauto]. intros [[? [=]]|?]; done.
Qed.

End Builder.

(** ** The rule *)

Section Rule.

Variable host : Host.

(** [compose_project_rule], case by case. *)
Lemma compose_project_rule_unfold q s :
  compose_project_rule host q s
  = match
      match container_cache s !! nserver.name q with
      | None => populate_cache host s
      | Some _ => (Returned tt, s)
      end
    with
    | (Raised e, s1) => (Raised e, s1)
    | (Returned _, s1) =>
        match container_cache s1 !! nserver.name q with
        | None => (Returned None, s1)
        | Some container =>
            let now := time_time host (clock_reads s1) in
            if gt (fsub now (last_updated container)) 60%Q
            then
              match populate_cache host (ticked s1) with
              | (Raised e, s2) => (Raised e, s2)
              | (Returned _, s2) =>
                  match container_cache s2 !! nserver.name q with
                  | None => (Returned None, s2)
                  | Some container' =>
                      (served (respond host q container' (ttl_at now container')), s2)
                  end
              end
            else (served (respond host q container (ttl_at now container)), ticked s1)
        end
    end.
Proof.
  unfold compose_project_rule, bind, get_container_cache, ret, time, answer, served.
  generalize (populate_cache host). intros rebuild.
  destruct (container_cache s !! nserver.name q) as [e0|] eqn:H0.
  - rewrite H0. cbn.
    destruct (gt _ _).
    + destruct (rebuild (ticked s)) as [[[]|e] s2]; [|done].
      destruct (container_cache s2 !! nserver.name q) as [c'|] eqn:H2; rewrite ?H2; [|done].
      by destruct (respond host q c' _).
    + cbn. rewrite H0. by destruct (respond host q e0 _).
  - destruct (rebuild s) as [[[]|e] s1]; [|done].
    destruct (container_cache s1 !! nserver.name q) as [c1|] eqn:H1; [|done]. cbn.
    destruct (gt _ _).
    + destruct (rebuild (ticked s1)) as [[[]|e] s2]; [|done].
      destruct (container_cache s2 !! nserver.name q) as [c'|] eqn:H2; rewrite ?H2; [|done].
      by destruct (respond host q c' _).
    + cbn. rewrite H1. by destruct (respond host q c1 _).
Qed.

(** Serving a stored entry whose age, as the program computes it, is at
    most 60 seconds. *)
Lemma compose_project_rule_fresh q s entry :
  container_cache s !! nserver.name q = Some entry →
  (fsub (time_time host (clock_reads s)) (last_updated entry) <= 60)%Q →
  compose_project_rule host q s
  = (served (respond host q entry (ttl_at (time_time host (clock_reads s)) entry)),
     ticked s).
Proof.
  intros Hin Hfresh. rewrite compose_project_rule_unfold, Hin. cbv beta iota zeta.
  rewrite Hin. apply gt_false in Hfresh. by rewrite Hfresh.
Qed.

(** What [served] lets through. *)
Lemma served_returned o result :
  served o = Returned result → ∃ response, o = Returned response ∧ result = Some response.
Proof. destruct o; cbn; [intros [= <-]; eauto|discriminate]. Qed.

End Rule.

Lemma response_for_ips q entry ttl :
  map nserver.ip_of (nserver.answers (response_for q entry ttl)) = matching_addresses q entry.
Proof.
  unfold response_for, matching_addresses.
  destruct (String.eqb _ _); cbn; rewrite map_map; cbn; apply map_id.
Qed.

Lemma response_for_ttl q entry ttl :
  Forall (λ a, nserver.ttl_of a = ttl) (nserver.answers (response_for q entry ttl)).
Proof.
  unfold response_for.
  destruct (String.eqb _ _); cbn; apply Forall_forall; intros a Ha;
    apply list_elem_of_In, in_map_iff in Ha; by destruct Ha as (ip & <- & _).
Qed.

Lemma response_for_length q entry ttl :
  length (nserver.answers (response_for q entry ttl)) = length (matching_addresses q entry).
Proof.
  unfold response_for, matching_addresses.
  destruct (String.eqb _ _); cbn; apply length_map.
Qed.

(** ** The claims about the rule *)




(** At the edge it is the float difference that decides.  The entry is
    stamped at the double 0.1 and the clock reads the double 60.1: the exact
    difference is above 60, the float difference is 60.0, and the rule
    serves the stored entry, with TTL 0, without a rebuild. *)
Example compose_project_rule_float_edge :
  (60 < (8458323050155213 # 140737488355328)
        - (3602879701896397 # 36028797018963968))%Q
  ∧ compose_project_rule
      (Sample.host_of (λ _, 8458323050155213 # 140737488355328) (Some []))
      Sample.query_A
      (Sample.serving (Sample.web_entry_at (3602879701896397 # 36028797018963968)))
    = (Returned (Some {| nserver.answers := [nserver.A "web.shop.dcdc" "10.0.0.5" 0] |}),
       ticked (Sample.serving
                 (Sample.web_entry_at (3602879701896397 # 36028797018963968)))).
Proof. split; vm_compute; reflexivity. Qed.

Lemma ttl_at_bounds now entry :
  (last_updated entry <= now)%Q →
  (fsub now (last_updated entry) <= 60)%Q →
  ttl_at now entry = 60 - Qfloor (fsub now (last_updated entry))
  ∧ (0 ≤ ttl_at now entry ≤ 60)%Z.
Proof.
  intros Hle Hfresh. unfold ttl_at.
  pose proof (fsub_nonneg _ _ Hle) as Hpos.
  rewrite int_floor by done. split; [done|].
  pose proof (Qfloor_resp_le _ _ Hpos) as H0.
  pose proof (Qfloor_resp_le _ _ Hfresh) as H60.
  change (Qfloor 0) with 0 in H0. change (Qfloor 60) with 60 in H60. lia.
Qed.

(** C2 (TTL), as the rule computes it.  Whenever the rule returns a response,
    it serves the entry found under the query name in the cache it leaves
    behind, [now] is the clock reading taken right after the miss rebuild
    (the first reading of the call when the name was stored), the TTL is
    [60 - int(now - last_updated)], with the difference taken in floats and
    [int] truncating towards zero, and every answer carries it.  When the
    rule made no runtime call, the entry is the one that was stored, and if
    moreover [last_updated <= now] the TTL is 60 minus the floor of that
    float difference and lies in the closed interval from 0 to 60. *)
Theorem C2_ttl host q s resp s' :
  compose_project_rule host q s = (Returned (Some resp), s') →
  ∃ s1 entry,
    match container_cache s !! nserver.name q with
    | Some _ => s1 = s
    | None => populate_cache host s = (Returned tt, s1)
    end
    ∧ container_cache s' !! nserver.name q = Some entry
    ∧ resp = response_for q entry (ttl_at (time_time host (clock_reads s1)) entry)
    ∧ Forall (λ a, nserver.ttl_of a = ttl_at (time_time host (clock_reads s1)) entry)
        (nserver.answers resp)
    ∧ (docker_calls s' = docker_calls s →
       container_cache s !! nserver.name q = Some entry
       ∧ ((last_updated entry <= time_time host (clock_reads s))%Q →
          ttl_at (time_time host (clock_reads s)) entry
          = 60 - Qfloor (fsub (time_time host (clock_reads s)) (last_updated entry))
          ∧ (0 ≤ ttl_at (time_time host (clock_reads s)) entry ≤ 60)%Z)).
Proof.
  rewrite compose_project_rule_unfold.
  destruct (container_cache s !! nserver.name q) as [entry|] eqn:H0.
  - rewrite H0. cbv beta iota zeta.
    destruct (gt _ _) eqn:Hgt.
    + pose proof (populate_cache_calls host (ticked s)) as Hcalls.
      destruct (populate_cache host (ticked s)) as [[[]|e] s2]; [|done].
      destruct (container_cache s2 !! nserver.name q) as [entry'|] eqn:H2; [|done].
      intros [= Hserved <-]. apply served_returned in Hserved as (r & Hr & [= <-]).
      apply respond_returned in Hr as [-> _]. exists s, entry'.
      split_and!; [done|done|done|apply response_for_ttl|]. cbn in Hcalls. lia.
    + intros [= Hserved <-]. apply served_returned in Hserved as (r & Hr & [= <-]).
      apply respond_returned in Hr as [-> _]. exists s, entry.
      split_and!; [done|done|done|apply response_for_ttl|]. intros _.
      split; [done|]. intros Hle. apply ttl_at_bounds; [done|].
      by apply gt_false.
  - pose proof (populate_cache_calls host s) as Hcalls1.
    destruct (populate_cache host s) as [[[]|e] s1]; [|done].
    destruct (container_cache s1 !! nserver.name q) as [entry|] eqn:H1; [|done].
    cbv beta iota zeta. destruct (gt _ _) eqn:Hgt.
    + pose proof (populate_cache_calls host (ticked s1)) as Hcalls.
      destruct (populate_cache host (ticked s1)) as [[[]|e] s2]; [|done].
      destruct (container_cache s2 !! nserver.name q) as [entry'|] eqn:H2; [|done].
      intros [= Hserved <-]. apply served_returned in Hserved as (r & Hr & [= <-]).
      apply respond_returned in Hr as [-> _]. exists s1, entry'.
      split_and!; [done|done|done|apply response_for_ttl|]. cbn in *. lia.
    + intros [= Hserved <-]. apply served_returned in Hserved as (r & Hr & [= <-]).
      apply respond_returned in Hr as [-> _]. exists s1, entry.
      split_and!; [done|done|done|apply response_for_ttl|]. cbn in *. lia.
Qed.

(** The witness reads the clock at the double 1.2 for an entry stamped at
    the double 0.2: the float difference is 1.0 and the TTL 59, where the
    exact difference is just below 1. *)
Lemma C2_ttl_witness :
  ∃ s1 entry,
    s1 = Sample.serving (Sample.web_entry_at (3602879701896397 # 18014398509481984))
    ∧ container_cache
        (ticked (Sample.serving (Sample.web_entry_at (3602879701896397 # 18014398509481984))))
        !! "web.shop.dcdc" = Some entry
    ∧ {| nserver.answers := [nserver.A "web.shop.dcdc" "10.0.0.5" 59] |}
      = response_for Sample.query_A entry
          (ttl_at (5404319552844595 # 4503599627370496) entry)
    ∧ Forall (λ a, nserver.ttl_of a = ttl_at (5404319552844595 # 4503599627370496) entry)
        [nserver.A "web.shop.dcdc" "10.0.0.5" 59]
    ∧ (0%nat = 0%nat →
       container_cache
         (Sample.serving (Sample.web_entry_at (3602879701896397 # 18014398509481984)))
         !! "web.shop.dcdc" = Some entry
       ∧ ((last_updated entry <= 5404319552844595 # 4503599627370496)%Q →
          ttl_at (5404319552844595 # 4503599627370496) entry
          = 60 - Qfloor (fsub (5404319552844595 # 4503599627370496) (last_updated entry))
          ∧ (0 ≤ ttl_at (5404319552844595 # 4503599627370496) entry ≤ 60)%Z)).
Proof.
  apply (C2_ttl (Sample.host_of (λ _, 5404319552844595 # 4503599627370496) None)
           Sample.query_A
           (Sample.serving (Sample.web_entry_at (3602879701896397 # 18014398509481984)))
           {| nserver.answers := [nserver.A "web.shop.dcdc" "10.0.0.5" 59] |}
           (ticked (Sample.serving
                      (Sample.web_entry_at (3602879701896397 # 18014398509481984))))).
  vm_compute. reflexivity.
Defined.

(** C2, as claimed, fails twice.  A record half a second old is served with
    TTL 60, outside the half-open interval from 0 to 60.  And after a stale
    rebuild the new record is stamped after [now] was read, so the difference
    is negative and [int] rounds it up where floor rounds it down: the clock
    reads 161, then 161.5 at the rebuild, and the TTL is 60, not
    [60 - floor(-0.5) = 61]. *)
Lemma C2_counterexample :
  (∃ resp s',
     compose_project_rule (Sample.host_of (λ _, 201 # 2) None) Sample.query_A
       (Sample.serving Sample.web_entry) = (Returned (Some resp), s')
     ∧ nserver.answers resp ≠ []
     ∧ ¬ Forall (λ a, (0 ≤ nserver.ttl_of a < 60)%Z) (nserver.answers resp))
  ∧ (∃ resp s' entry,
     compose_project_rule
       (Sample.host_of (Sample.clock_jump 161 (323 # 2)) (Some [Sample.web1]))
       Sample.query_A (Sample.serving Sample.web_entry) = (Returned (Some resp), s')
     ∧ container_cache s' !! "web.shop.dcdc" = Some entry
     ∧ nserver.answers resp ≠ []
     ∧ ¬ Forall (λ a, nserver.ttl_of a = 60 - Qfloor (fsub 161 (last_updated entry)))
           (nserver.answers resp)).
Proof.
  split.
  - eexists _, _. split; [vm_compute; reflexivity|]. split; [discriminate|].
    intros H. apply Forall_cons in H as [H _]. cbn in H. lia.
  - eexists _, _, _. split; [vm_compute; reflexivity|]. split; [vm_compute; reflexivity|].
    split; [discriminate|].
    intros H. apply Forall_cons in H as [H _]. vm_compute in H. discriminate.
Qed.

(** C3 (rebuilds per call), as the rule does it.  One call of the rule makes
    at most two runtime calls: at most one for a miss and at most one for
    staleness.  It makes at most one when the name is in the cache at the
    start.  It makes two only when the name was missing, the first rebuild
    completed and filed the name, and the clock reading taken after that
    rebuild is more than 60 seconds past the new entry's [last_updated],
    by the float difference the rule computes and by the exact one. *)
Theorem C3_rebuilds_per_call host q s :
  let s' := (compose_project_rule host q s).2 in
  (docker_calls s' ≤ docker_calls s + 2)%nat
  ∧ (is_Some (container_cache s !! nserver.name q) →
     (docker_calls s' ≤ docker_calls s + 1)%nat)
  ∧ (docker_calls s' = (docker_calls s + 2)%nat →
     container_cache s !! nserver.name q = None
     ∧ ∃ s1 entry,
         populate_cache host s = (Returned tt, s1)
         ∧ container_cache s1 !! nserver.name q = Some entry
         ∧ (60 < time_time host (clock_reads s1) - last_updated entry)%Q
         ∧ (60 < fsub (time_time host (clock_reads s1)) (last_updated entry))%Q).
Proof.
  cbv zeta. rewrite compose_project_rule_unfold.
  destruct (container_cache s !! nserver.name q) as [entry|] eqn:H0.
  - rewrite H0. cbv beta iota zeta. destruct (gt _ _).
    + pose proof (populate_cache_calls host (ticked s)) as Hcalls.
      destruct (populate_cache host (ticked s)) as [[[]|e] s2];
        [destruct (container_cache s2 !! nserver.name q)|]; cbn [fst snd] in *;
        (split_and!; [cbn in *; lia|intros _; cbn in *; lia|cbn in *; lia]).
    + cbn. split_and!; [lia|intros _; lia|lia].
  - pose proof (populate_cache_calls host s) as Hcalls1.
    destruct (populate_cache host s) as [[[]|e] s1] eqn:Hfirst.
    2:{ cbn in *. split_and!; [lia|by intros [? [=]]|lia]. }
    destruct (container_cache s1 !! nserver.name q) as [entry|] eqn:H1.
    2:{ cbn in *. split_and!; [lia|by intros [? [=]]|lia]. }
    cbv beta iota zeta. destruct (gt _ _) eqn:Hgt.
    2:{ cbn in *. split_and!; [lia|by intros [? [=]]|lia]. }
    pose proof (populate_cache_calls host (ticked s1)) as Hcalls.
    apply gt_true in Hgt. pose proof (fsub_gt_60 _ _ Hgt) as Hexact.
    destruct (populate_cache host (ticked s1)) as [[[]|e] s2].
    + destruct (container_cache s2 !! nserver.name q); cbn [fst snd] in *;
        (split_and!; [cbn in *; lia|by intros [? [=]]|]); intros _; split; eauto 10.
    + cbn in *. split_and!; [lia|by intros [? [=]]|]. intros _; split; eauto 10.
Qed.

(** C3, as claimed, fails: the cache is empty, the runtime reports the
    container, the first rebuild stamps the new entry at clock reading 0
    and the rule then reads the clock at 61, so the fresh entry is already
    stale and the rule rebuilds a second time. *)
Lemma C3_counterexample :
  docker_calls setup = 0%nat
  ∧ docker_calls
      (compose_project_rule (Sample.host_of (Sample.clock_jump 0 61) (Some [Sample.web1]))
         Sample.query_A setup).2 = 2%nat.
Proof. split; vm_compute; reflexivity. Qed.

Lemma C3_rebuilds_per_call_witness :
  container_cache setup !! nserver.name Sample.query_A = None
  ∧ ∃ s1 entry,
      populate_cache (Sample.host_of (Sample.clock_jump 0 61) (Some [Sample.web1])) setup
      = (Returned tt, s1)
      ∧ container_cache s1 !! nserver.name Sample.query_A = Some entry
      ∧ (60 < time_time (Sample.host_of (Sample.clock_jump 0 61) (Some [Sample.web1]))
                (clock_reads s1) - last_updated entry)%Q
      ∧ (60 < fsub (time_time (Sample.host_of (Sample.clock_jump 0 61) (Some [Sample.web1]))
                      (clock_reads s1)) (last_updated entry))%Q.
Proof.
  apply (proj2 (proj2 (C3_rebuilds_per_call
                         (Sample.host_of (Sample.clock_jump 0 61) (Some [Sample.web1]))
                         Sample.query_A setup))).
  vm_compute. reflexivity.
Defined.

(** C4 (runtime failure), as the program handles it.  When the runtime call
    of a rebuild fails, [populate_cache] raises and installs nothing.  For
    the rule this means: the cache it leaves is the cache it found; when the
    name is stored and the float difference [now - last_updated] is at most
    60 no rebuild is attempted and the response is filled from the stored
    entry; in every other case the rule ends with the runtime's exception,
    which goes to its caller. *)
Theorem C4_runtime_failure host q s :
  containers_list host (docker_calls s) = None →
  (∃ s', populate_cache host s = (Raised DockerException, s')
         ∧ container_cache s' = container_cache s)
  ∧ container_cache (compose_project_rule host q s).2 = container_cache s
  ∧ match container_cache s !! nserver.name q with
    | Some entry =>
        let now := time_time host (clock_reads s) in
        if gt (fsub now (last_updated entry)) 60%Q
        then (compose_project_rule host q s).1 = Raised DockerException
        else compose_project_rule host q s
             = (served (respond host q entry (ttl_at now entry)), ticked s)
    | None => (compose_project_rule host q s).1 = Raised DockerException
    end.
Proof.
  intros Hfail.
  assert (∀ s0, docker_calls s0 = docker_calls s →
            populate_cache host s0
            = (Raised DockerException, called (logged "populating cache" s0))) as Hpop.
  { intros s0 Heq. rewrite populate_cache_unfold. cbv zeta. by rewrite Heq, Hfail. }
  split; [eexists; split; [by apply Hpop|done]|].
  rewrite compose_project_rule_unfold.
  destruct (container_cache s !! nserver.name q) as [entry|] eqn:H0.
  - rewrite H0. cbv beta iota zeta. destruct (gt _ _); [|done].
    by rewrite (Hpop (ticked s)).
  - by rewrite (Hpop s).
Qed.

Lemma C4_runtime_failure_witness :
  (∃ s', populate_cache (Sample.host_of (λ _, 0%Q) None) setup = (Raised DockerException, s')
         ∧ container_cache s' = container_cache setup)
  ∧ container_cache
      (compose_project_rule (Sample.host_of (λ _, 0%Q) None) Sample.query_A setup).2
    = container_cache setup
  ∧ (compose_project_rule (Sample.host_of (λ _, 0%Q) None) Sample.query_A setup).1
    = Raised DockerException.
Proof.
  apply (C4_runtime_failure (Sample.host_of (λ _, 0%Q) None) Sample.query_A setup).
  reflexivity.
Defined.

(** C4, as claimed, fails: with a runtime that cannot be reached, the first
    query ends in the runtime's exception, not in a result. *)
Lemma C4_counterexample :
  containers_list (Sample.host_of (λ _, 0%Q) None) (docker_calls setup) = None
  ∧ ∀ result,
      (compose_project_rule (Sample.host_of (λ _, 0%Q) None) Sample.query_A setup).1
      ≠ Returned result.
Proof. split; [reflexivity|]. intros result. vm_compute. discriminate. Qed.

(** A response the rule returns is filled from the entry under the query
    name in the cache the rule leaves, at one TTL; and the query type decides
    nothing but which list fills the response: a query of another type for
    the same name leaves the same application object and ends with the
    response filled from the same entry at the same TTL. *)
Lemma compose_project_rule_type_blind host q q' s :
  nserver.name q = nserver.name q' →
  (compose_project_rule host q s).2 = (compose_project_rule host q' s).2
  ∧ ∀ resp,
      (compose_project_rule host q s).1 = Returned (Some resp) →
      ∃ entry ttl,
        container_cache (compose_project_rule host q s).2 !! nserver.name q = Some entry
        ∧ resp = response_for q entry ttl
        ∧ (compose_project_rule host q' s).1 = served (respond host q' entry ttl).
Proof.
  intros Hname. rewrite !compose_project_rule_unfold, <- Hname.
  assert (∀ entry ttl resp,
            served (respond host q entry ttl) = Returned (Some resp) →
            resp = response_for q entry ttl) as Hfill.
  { intros entry ttl resp H. apply served_returned in H as (r & Hr & [= <-]).
    by apply respond_returned in Hr as [-> _]. }
  destruct (container_cache s !! nserver.name q) as [entry|] eqn:H0.
  - rewrite H0. cbv beta iota zeta. destruct (gt _ _).
    + destruct (populate_cache host (ticked s)) as [[[]|e] s2]; [|done].
      destruct (container_cache s2 !! nserver.name q) eqn:H2; cbn [fst snd]; [|done].
      split; [done|]. intros resp Hresp. apply Hfill in Hresp. eauto 10.
    + cbn [fst snd]. split; [done|]. intros resp Hresp. apply Hfill in Hresp. eauto 10.
  - destruct (populate_cache host s) as [[[]|e] s1]; [|done].
    destruct (container_cache s1 !! nserver.name q) as [entry|] eqn:H1; [|done].
    cbv beta iota zeta. destruct (gt _ _).
    + destruct (populate_cache host (ticked s1)) as [[[]|e] s2]; [|done].
      destruct (container_cache s2 !! nserver.name q) eqn:H2; cbn [fst snd]; [|done].
      split; [done|]. intros resp Hresp. apply Hfill in Hresp. eauto 10.
    + cbn [fst snd]. split; [done|]. intros resp Hresp. apply Hfill in Hresp. eauto 10.
Qed.



(** C10 (empty response is not "no answer").  For a query whose name is in
    the cache with an entry at most 60 seconds old, if the address list of
    the queried family is empty the rule returns a response with no answers,
    which is not the [None] it returns when the name is still missing after
    a rebuild. *)
Theorem C10_empty_response host q s entry :
  container_cache s !! nserver.name q = Some entry →
  (time_time host (clock_reads s) - last_updated entry <= 60)%Q →
  matching_addresses q entry = [] →
  (compose_project_rule host q s).1 = Returned (Some {| nserver.answers := [] |})
  ∧ (∀ q0 s0 s1,
       container_cache s0 !! nserver.name q0 = None →
       populate_cache host s0 = (Returned tt, s1) →
       container_cache s1 !! nserver.name q0 = None →
       (compose_project_rule host q0 s0).1 = Returned None
       ∧ (compose_project_rule host q s).1 ≠ (compose_project_rule host q0 s0).1).
Proof.
  intros Hin Hfresh Hempty. apply fsub_le_60 in Hfresh.
  pose proof (compose_project_rule_fresh host q s entry Hin Hfresh) as Hrun.
  assert ((compose_project_rule host q s).1 = Returned (Some {| nserver.answers := [] |}))
    as Hresp by (by rewrite Hrun, respond_empty).
  split; [done|]. intros q0 s0 s1 H0 Hpop H1.
  assert ((compose_project_rule host q0 s0).1 = Returned None) as Hnone
    by (by rewrite compose_project_rule_unfold, H0, Hpop, H1).
  split; [done|]. by rewrite Hresp, Hnone.
Qed.

Lemma C10_empty_response_witness :
  (compose_project_rule (Sample.host_of (λ _, 130%Q) None) Sample.query_A
     (Sample.serving Sample.v6_entry)).1
  = Returned (Some {| nserver.answers := [] |})
  ∧ (∀ q0 s0 s1,
       container_cache s0 !! nserver.name q0 = None →
       populate_cache (Sample.host_of (λ _, 130%Q) None) s0 = (Returned tt, s1) →
       container_cache s1 !! nserver.name q0 = None →
       (compose_project_rule (Sample.host_of (λ _, 130%Q) None) q0 s0).1 = Returned None
       ∧ (compose_project_rule (Sample.host_of (λ _, 130%Q) None) Sample.query_A
            (Sample.serving Sample.v6_entry)).1
         ≠ (compose_project_rule (Sample.host_of (λ _, 130%Q) None) q0 s0).1).
Proof.
  apply (C10_empty_response (Sample.host_of (λ _, 130%Q) None) Sample.query_A
           (Sample.serving Sample.v6_entry) Sample.v6_entry);
    [reflexivity|vm_compute; discriminate|reflexivity].
Defined.

(** ** The claims about the builder *)

Lemma truthy_nonempty (a : string) : truthy a = true ↔ a ≠ "".
Proof. destruct a; cbn; split; (done || congruence). Qed.

Lemma elem_of_ipv4_of a nets :
  a ∈ ipv4_of nets
  ↔ ∃ net, net ∈ nets ∧ Docker.IPAddress net.2 = Some a ∧ a ≠ "".
Proof.
  unfold ipv4_of. rewrite list_elem_of_bind. split.
  - intros (net & Ha & Hnet). exists net. split; [done|].
    destruct (Docker.IPAddress net.2) as [b|]; cbn in Ha.
    + destruct (truthy b) eqn:Hb; [|by apply elem_of_nil in Ha].
      apply list_elem_of_singleton in Ha as ->. split; [done|by apply truthy_nonempty].
    + by apply elem_of_nil in Ha.
  - intros (net & Hnet & Hip & Ha). exists net. split; [|done].
    rewrite Hip. cbn. apply truthy_nonempty in Ha. rewrite Ha.
    by apply list_elem_of_singleton.
Qed.

Lemma elem_of_ipv6_of a nets :
  a ∈ ipv6_of nets
  ↔ ∃ net, net ∈ nets ∧ Docker.GlobalIPv6Address net.2 = Some a ∧ a ≠ "".
Proof.
  unfold ipv6_of. rewrite list_elem_of_bind. split.
  - intros (net & Ha & Hnet). exists net. split; [done|].
    destruct (Docker.GlobalIPv6Address net.2) as [b|]; cbn in Ha.
    + destruct (truthy b) eqn:Hb; [|by apply elem_of_nil in Ha].
      apply list_elem_of_singleton in Ha as ->. split; [done|by apply truthy_nonempty].
    + by apply elem_of_nil in Ha.
  - intros (net & Hnet & Hip & Ha). exists net. split; [|done].
    rewrite Hip. cbn. apply truthy_nonempty in Ha. rewrite Ha.
    by apply list_elem_of_singleton.
Qed.

Lemma members_nonempty host k cs :
  members host k cs ≠ [] ↔ ∃ c, c ∈ cs ∧ key_of host c = Some k.
Proof.
  unfold members. split.
  - destruct (filter _ cs) as [|c l] eqn:Hf; [done|]. intros _.
    assert (c ∈ filter (λ c, key_of host c = Some k) cs) as Hc
      by (rewrite Hf; apply list_elem_of_here).
    apply list_elem_of_filter in Hc as [? ?]. eauto.
  - intros (c & Hc & Hk) Hnil.
    assert (c ∈ filter (λ c, key_of host c = Some k) cs) as Hin
      by (by apply list_elem_of_filter).
    rewrite Hnil in Hin. by apply elem_of_nil in Hin.
Qed.

(** With the project and ordinal labels present, one container is
    processed without an exception. *)
Lemma populate_container_returns host acc c s :
  is_Some (Docker.labels c !! "com.docker.compose.project") →
  is_Some (Docker.labels c !! "com.docker.compose.container-number") →
  ∃ acc', (populate_container host acc c s).1 = Returned acc'.
Proof.
  intros [p Hp] [n Hn].
  unfold populate_container, bind, info, getitem, ret, raise, time. rewrite Hp, Hn.
  destruct (acc !! _); cbn; eauto.
Qed.

(** The loop completes on a snapshot in which every container that has the
    project label has the ordinal label too. *)
Lemma for_each_populate_returns host cs acc s :
  (∀ c, c ∈ cs →
        is_Some (Docker.labels c !! "com.docker.compose.project") →
        is_Some (Docker.labels c !! "com.docker.compose.container-number")) →
  ∃ cache, (for_each (populate_container host) acc cs s).1 = Returned cache.
Proof.
  revert acc s. induction cs as [|c cs IH]; intros acc s Hall; [by eexists|].
  cbn [for_each]. unfold bind.
  assert (∃ acc', (populate_container host acc c s).1 = Returned acc') as [acc' Hstep].
  { destruct (Docker.labels c !! "com.docker.compose.project") as [p|] eqn:Hp.
    - apply populate_container_returns; [eauto|].
      apply Hall; [apply list_elem_of_here|eauto].
    - rewrite populate_container_unlabelled by done. by eexists. }
  destruct (populate_container host acc c s) as [o s1]. cbn in Hstep. subst o.
  apply IH. intros c' Hc'. apply Hall. by apply list_elem_of_further.
Qed.

Lemma populate_cache_completes host s cs :
  containers_list host (docker_calls s) = Some cs →
  (∀ c, c ∈ cs →
        is_Some (Docker.labels c !! "com.docker.compose.project") →
        is_Some (Docker.labels c !! "com.docker.compose.container-number")) →
  ∃ s', populate_cache host s = (Returned tt, s').
Proof.
  intros Hcs Hall. rewrite populate_cache_unfold. cbv zeta. rewrite Hcs.
  destruct (for_each_populate_returns host cs ∅
              (called (logged "populating cache" s)) Hall) as [cache Hloop].
  destruct (for_each _ _ _ _) as [o s2]. cbn in Hloop. subst o. by eexists.
Qed.

(** C5 (merge completeness).  On a snapshot in which every container with
    the project label also has the ordinal label, a rebuild completes; and
    for two containers of the snapshot with the same project label and the
    same service label, both are filed under one composite key, the new
    cache has an entry under that key, and that entry's [ipv4_addresses]
    holds every non-empty [IPAddress] of every network attachment of either
    container, its [ipv6_addresses] every non-empty [GlobalIPv6Address]. *)
Theorem C5_merge_completeness host s cs c1 c2 project :
  containers_list host (docker_calls s) = Some cs →
  (∀ c, c ∈ cs →
        is_Some (Docker.labels c !! "com.docker.compose.project") →
        is_Some (Docker.labels c !! "com.docker.compose.container-number")) →
  c1 ∈ cs → c2 ∈ cs →
  Docker.labels c1 !! "com.docker.compose.project" = Some project →
  Docker.labels c2 !! "com.docker.compose.project" = Some project →
  Docker.labels c1 !! "com.docker.compose.service"
  = Docker.labels c2 !! "com.docker.compose.service" →
  let key := cache_key_of host (Docker.labels c1 !! "com.docker.compose.service") project in
  key_of host c1 = Some key ∧ key_of host c2 = Some key
  ∧ ∃ s' entry,
      populate_cache host s = (Returned tt, s')
      ∧ container_cache s' !! key = Some entry
      ∧ ∀ c net a, c = c1 ∨ c = c2 → net ∈ Docker.networks c → a ≠ "" →
          (Docker.IPAddress net.2 = Some a → a ∈ ipv4_addresses entry)
          ∧ (Docker.GlobalIPv6Address net.2 = Some a → a ∈ ipv6_addresses entry).
Proof.
  intros Hcs Hall Hc1 Hc2 Hp1 Hp2 Hsvc key.
  assert (key_of host c1 = Some key) as Hk1 by (unfold key_of; by rewrite Hp1).
  assert (key_of host c2 = Some key) as Hk2 by (unfold key_of; by rewrite Hp2, <- Hsvc).
  split_and!; [done|done|].
  destruct (populate_cache_completes host s cs Hcs Hall) as [s' Hpop].
  destruct (populate_cache_returned host s s' Hpop) as (cs' & Hcs' & Hlook).
  assert (cs' = cs) as -> by congruence.
  destruct (Hlook key) as (H4 & H6 & Hin).
  destruct (proj2 Hin) as [entry Hentry].
  { apply members_nonempty. eauto. }
  exists s', entry. split_and!; [done|done|]. unfold ipv4_at, ipv6_at in *.
  rewrite Hentry in H4, H6. cbn in H4, H6. intros c net a Hc Hnet Ha.
  assert (c ∈ members host key cs) as Hmem.
  { apply list_elem_of_filter. by destruct Hc as [-> | ->]. }
  split; intros Hip.
  - rewrite H4. apply list_elem_of_bind. exists c. split; [|done].
    apply elem_of_ipv4_of. eauto.
  - rewrite H6. apply list_elem_of_bind. exists c. split; [|done].
    apply elem_of_ipv6_of. eauto.
Qed.

Lemma C5_merge_completeness_witness :
  key_of Sample.three_containers Sample.web1 = Some "web.shop.dcdc"
  ∧ key_of Sample.three_containers Sample.web2 = Some "web.shop.dcdc"
  ∧ ∃ s' entry,
      populate_cache Sample.three_containers setup = (Returned tt, s')
      ∧ container_cache s' !! "web.shop.dcdc" = Some entry
      ∧ ∀ c net a, c = Sample.web1 ∨ c = Sample.web2 → net ∈ Docker.networks c → a ≠ "" →
          (Docker.IPAddress net.2 = Some a → a ∈ ipv4_addresses entry)
          ∧ (Docker.GlobalIPv6Address net.2 = Some a → a ∈ ipv6_addresses entry).
Proof.
  apply (C5_merge_completeness Sample.three_containers setup
           [Sample.web1; Sample.stray; Sample.web2] Sample.web1 Sample.web2 "shop").
  - reflexivity.
  - intros c Hc Hp.
    repeat (apply elem_of_cons in Hc as [->|Hc]); [| | |by apply elem_of_nil in Hc].
    + by eexists.
    + destruct Hp as [p Hp]. vm_compute in Hp. discriminate.
    + by eexists.
  - apply list_elem_of_here.
  - do 2 apply list_elem_of_further. apply list_elem_of_here.
  - reflexivity.
  - reflexivity.
  - reflexivity.
Defined.

(** C5, as claimed, fails: [web1] and [web2] share the project and the
    service label, but the snapshot also holds a container of the project
    without the ordinal label, so the rebuild raises and installs nothing:
    there is no record under the pair's key. *)
Lemma C5_counterexample :
  Docker.labels Sample.web1 !! "com.docker.compose.project"
  = Docker.labels Sample.web2 !! "com.docker.compose.project"
  ∧ Docker.labels Sample.web1 !! "com.docker.compose.service"
    = Docker.labels Sample.web2 !! "com.docker.compose.service"
  ∧ key_of (Sample.host_of (λ _, 100%Q) None) Sample.web1 = Some "web.shop.dcdc"
  ∧ key_of (Sample.host_of (λ _, 100%Q) None) Sample.web2 = Some "web.shop.dcdc"
  ∧ (populate_cache
       (Sample.host_of (λ _, 100%Q) (Some [Sample.web1; Sample.web2; Sample.no_number]))
       setup).1
    = Raised (KeyError "com.docker.compose.container-number")
  ∧ container_cache
      (populate_cache
         (Sample.host_of (λ _, 100%Q) (Some [Sample.web1; Sample.web2; Sample.no_number]))
         setup).2 !! "web.shop.dcdc" = None.
Proof. split_and!; vm_compute; reflexivity. Qed.

Lemma string_length_append (a b : string) :
  String.length (a +:+ b) = (String.length a + String.length b)%nat.
Proof.
  induction a as [|x a IH]; [done|].
  change (String x a +:+ b) with (String x (a +:+ b)). cbn. by rewrite IH.
Qed.

(** A container with the project label and without the ordinal label makes
    the loop raise, whatever came before it. *)
Lemma for_each_populate_no_number host cs c acc s :
  c ∈ cs →
  is_Some (Docker.labels c !! "com.docker.compose.project") →
  Docker.labels c !! "com.docker.compose.container-number" = None →
  (for_each (populate_container host) acc cs s).1
  = Raised (KeyError "com.docker.compose.container-number").
Proof.
  intros Hc [p Hp] Hn. revert acc s.
  induction cs as [|c0 cs IH]; intros acc s; [by apply elem_of_nil in Hc|].
  cbn [for_each]. unfold bind.
  destruct (populate_container host acc c0 s) as [[acc'|e] s1] eqn:Hstep.
  - apply elem_of_cons in Hc as [->|Hc]; [|by apply IH].
    exfalso. revert Hstep.
    unfold populate_container, bind, info, getitem, ret, raise, time. rewrite Hp, Hn.
    by destruct (acc !! _).
  - cbn. f_equal. revert Hstep.
    unfold populate_container, bind, info, getitem, ret, raise, time.
    destruct (Docker.labels c0 !! "com.docker.compose.project"); [|done].
    destruct (acc !! _);
      destruct (Docker.labels c0 !! "com.docker.compose.container-number");
      cbn; congruence.
Qed.

(** C8 (missing labels), as the builder treats them.  A missing service
    label is rendered as the text "None", so the container is filed under
    "None.<project>.<root>", which is not the key of an empty service label;
    with the project and ordinal labels present, one container never makes
    the loop raise, with or without a service label.  A container that has
    the project label but no ordinal label makes the whole rebuild raise
    [KeyError], and the installed cache stays as it was. *)
Theorem C8_missing_labels host :
  (∀ project,
     cache_key_of host None project = "None." +:+ project +:+ "." +:+ ROOT_DOMAIN host
     ∧ cache_key_of host (Some "") project = "." +:+ project +:+ "." +:+ ROOT_DOMAIN host
     ∧ cache_key_of host None project ≠ cache_key_of host (Some "") project)
  ∧ (∀ acc c s,
       is_Some (Docker.labels c !! "com.docker.compose.project") →
       is_Some (Docker.labels c !! "com.docker.compose.container-number") →
       ∃ acc', (populate_container host acc c s).1 = Returned acc')
  ∧ (∀ s cs c,
       containers_list host (docker_calls s) = Some cs →
       c ∈ cs →
       is_Some (Docker.labels c !! "com.docker.compose.project") →
       Docker.labels c !! "com.docker.compose.container-number" = None →
       ∃ s', populate_cache host s
             = (Raised (KeyError "com.docker.compose.container-number"), s')
             ∧ container_cache s' = container_cache s).
Proof.
  split_and!.
  - intros project. split_and!; [done|done|].
    unfold cache_key_of, format_value. intros Heq.
    apply (f_equal String.length) in Heq.
    rewrite (string_length_append "None"), (string_length_append "") in Heq.
    cbn in Heq. lia.
  - intros acc c s Hp Hn. by apply populate_container_returns.
  - intros s cs c Hcs Hc Hp Hn.
    pose proof (for_each_populate_no_number host cs c ∅
                  (called (logged "populating cache" s)) Hc Hp Hn) as Hloop.
    destruct (populate_cache host s) as [o s'] eqn:Hpop. exists s'.
    assert (o = Raised (KeyError "com.docker.compose.container-number")) as ->.
    { revert Hpop. rewrite populate_cache_unfold. cbv zeta. rewrite Hcs.
      destruct (for_each _ _ _ _) as [[?|?] ?]; cbn in Hloop; [done|]. congruence. }
    split; [done|]. by eapply populate_cache_raised.
Qed.

(** C8, as claimed, fails on both counts: the container without a service
    label is filed under "None.shop.dcdc" and the one with an empty service
    label under ".shop.dcdc"; and one container without the ordinal label,
    listed after a well-formed one, makes the whole rebuild raise. *)
Lemma C8_counterexample :
  key_of (Sample.host_of (λ _, 100%Q) None) Sample.no_service = Some "None.shop.dcdc"
  ∧ key_of (Sample.host_of (λ _, 100%Q) None) Sample.empty_service = Some ".shop.dcdc"
  ∧ (populate_cache (Sample.host_of (λ _, 100%Q) (Some [Sample.web1; Sample.no_number]))
       setup).1
    = Raised (KeyError "com.docker.compose.container-number").
Proof. split_and!; vm_compute; reflexivity. Qed.

Lemma C8_missing_labels_witness :
  ∃ s', populate_cache (Sample.host_of (λ _, 100%Q) (Some [Sample.web1; Sample.no_number]))
          setup
        = (Raised (KeyError "com.docker.compose.container-number"), s')
        ∧ container_cache s' = container_cache setup.
Proof.
  apply (proj2 (proj2 (C8_missing_labels
                         (Sample.host_of (λ _, 100%Q) (Some [Sample.web1; Sample.no_number]))))
           setup [Sample.web1; Sample.no_number] Sample.no_number).
  - reflexivity.
  - apply list_elem_of_further, list_elem_of_here.
  - by eexists.
  - reflexivity.
Defined.

(** A query for a name that is not stored and that no snapshot files costs
    one runtime call, leaves the name missing and gives no response. *)
Lemma compose_project_rule_unknown host q s :
  (∀ i cs c, containers_list host i = Some cs → c ∈ cs →
             key_of host c ≠ Some (nserver.name q)) →
  container_cache s !! nserver.name q = None →
  docker_calls (compose_project_rule host q s).2 = S (docker_calls s)
  ∧ container_cache (compose_project_rule host q s).2 !! nserver.name q = None
  ∧ ∀ resp, (compose_project_rule host q s).1 ≠ Returned (Some resp).
Proof.
  intros Hnone H0. rewrite compose_project_rule_unfold, H0.
  pose proof (populate_cache_calls host s) as Hcalls.
  destruct (populate_cache host s) as [[[]|e] s1] eqn:Hpop.
  - destruct (populate_cache_returned host s s1 Hpop) as (cs & Hcs & Hlook).
    destruct (Hlook (nserver.name q)) as (_ & _ & Hin).
    destruct (container_cache s1 !! nserver.name q) as [entry|] eqn:H1; [|done].
    exfalso. assert (members host (nserver.name q) cs ≠ []) as Hne
      by (apply Hin; eauto).
    apply members_nonempty in Hne as (c' & Hc' & Hk'). by eapply Hnone.
  - apply populate_cache_raised in Hpop. cbn in *. by rewrite Hpop.
Qed.

(** C9 (no negative caching).  A query whose name is not in the cache always
    makes the rule call the runtime before it looks again.  And when no
    snapshot files the name, every query of a run of queries for it costs
    exactly one runtime call, however recent the last rebuild: after the
    run the runtime has been called once per query, the name is still
    missing and no query got a response. *)
Theorem C9_no_negative_caching host name :
  (∀ q s,
     nserver.name q = name →
     container_cache s !! name = None →
     (S (docker_calls s) ≤ docker_calls (compose_project_rule host q s).2)%nat)
  ∧ ((∀ i cs c, containers_list host i = Some cs → c ∈ cs → key_of host c ≠ Some name) →
     ∀ queries s,
       Forall (λ q, nserver.name q = name) queries →
       container_cache s !! name = None →
       docker_calls (serve host queries s).2 = (docker_calls s + length queries)%nat
       ∧ container_cache (serve host queries s).2 !! name = None
       ∧ Forall (λ o, ∀ resp, o ≠ Returned (Some resp)) (serve host queries s).1).
Proof.
  split.
  - intros q s <- H0. rewrite compose_project_rule_unfold, H0.
    pose proof (populate_cache_calls host s) as Hcalls1.
    destruct (populate_cache host s) as [[[]|e] s1]; [|cbn in *; lia].
    destruct (container_cache s1 !! nserver.name q) as [entry|]; [|cbn in *; lia].
    cbv beta iota zeta. destruct (gt _ _); [|cbn in *; lia].
    pose proof (populate_cache_calls host (ticked s1)) as Hcalls.
    destruct (populate_cache host (ticked s1)) as [[[]|e] s2]; [|cbn in *; lia].
    destruct (container_cache s2 !! nserver.name q); cbn in *; lia.
  - intros Hnone queries. induction queries as [|q queries IH]; intros s Hall H0.
    + cbn. split_and!; [lia|done|constructor].
    + apply Forall_cons in Hall as [<- Hall].
      destruct (compose_project_rule_unknown host q s Hnone H0) as (Hcalls & H1 & Hresp).
      destruct (IH _ Hall H1) as (IHcalls & IHin & IHresp).
      cbn [serve fst snd length]. rewrite IHcalls, Hcalls.
      split_and!; [lia|done|by constructor].
Qed.

Lemma C9_no_negative_caching_witness :
  docker_calls
    (serve Sample.three_containers
       [{| nserver.name := "db.shop.dcdc"; nserver.type := "A" |};
        {| nserver.name := "db.shop.dcdc"; nserver.type := "AAAA" |};
        {| nserver.name := "db.shop.dcdc"; nserver.type := "A" |}] setup).2
  = (docker_calls setup + 3)%nat
  ∧ container_cache
      (serve Sample.three_containers
         [{| nserver.name := "db.shop.dcdc"; nserver.type := "A" |};
          {| nserver.name := "db.shop.dcdc"; nserver.type := "AAAA" |};
          {| nserver.name := "db.shop.dcdc"; nserver.type := "A" |}] setup).2
    !! "db.shop.dcdc" = None
  ∧ Forall (λ o, ∀ resp, o ≠ Returned (Some resp))
      (serve Sample.three_containers
         [{| nserver.name := "db.shop.dcdc"; nserver.type := "A" |};
          {| nserver.name := "db.shop.dcdc"; nserver.type := "AAAA" |};
          {| nserver.name := "db.shop.dcdc"; nserver.type := "A" |}] setup).1.
Proof.
  apply (proj2 (C9_no_negative_caching Sample.three_containers "db.shop.dcdc")).
  - intros i cs c [= <-] Hc.
    repeat (apply elem_of_cons in Hc as [->|Hc]); [| | |by apply elem_of_nil in Hc];
      vm_compute; discriminate.
  - repeat constructor.
  - reflexivity.
Defined.

(** ** Containers without the project label leave no trace *)

Lemma observable_eq s1 s2 :
  observable s1 = observable s2 ↔
  container_cache s1 = container_cache s2
  ∧ clock_reads s1 = clock_reads s2
  ∧ docker_calls s1 = docker_calls s2.
Proof. unfold observable. split; [by intros [= -> -> ->]|by intros (-> & -> & ->)]. Qed.

Lemma sim_ret {T} (v : T) : sim (ret v) (ret v).
Proof. by intros s1 s2 H. Qed.

Lemma sim_raise {T} e : sim (@raise T e) (raise e).
Proof. by intros s1 s2 H. Qed.

Lemma sim_bind {T U} (m1 m2 : M T) (k1 k2 : T → M U) :
  sim m1 m2 → (∀ v, sim (k1 v) (k2 v)) → sim (bind m1 k1) (bind m2 k2).
Proof.
  intros Hm Hk s1 s2 H. unfold bind. destruct (Hm s1 s2 H) as [Ho Hs].
  destruct (m1 s1) as [[v1|e1] s1'], (m2 s2) as [[v2|e2] s2']; cbn in Ho, Hs; try done.
  - injection Ho as ->. by apply Hk.
  - by injection Ho as ->.
Qed.

Lemma sim_get_container_cache : sim get_container_cache get_container_cache.
Proof.
  intros s1 s2 H. pose proof H as (Hc & _ & _)%observable_eq.
  unfold get_container_cache. cbn. by rewrite Hc.
Qed.

Lemma sim_info msg1 msg2 : sim (info msg1) (info msg2).
Proof.
  intros s1 s2 H. split; [done|]. apply observable_eq in H as (? & ? & ?).
  by apply observable_eq.
Qed.

Lemma sim_time host : sim (time (managed_only host)) (time host).
Proof.
  intros s1 s2 H. apply observable_eq in H as (? & Hr & ?). unfold time. cbn.
  rewrite Hr. split; [done|]. apply observable_eq. cbn. by rewrite Hr.
Qed.

Lemma sim_time_same host : sim (time host) (time host).
Proof.
  intros s1 s2 H. apply observable_eq in H as (? & Hr & ?). unfold time. cbn.
  rewrite Hr. split; [done|]. apply observable_eq. cbn. by rewrite Hr.
Qed.

Lemma sim_populate_container host acc c :
  sim (populate_container host acc c) (populate_container host acc c).
Proof.
  unfold populate_container, getitem.
  apply sim_bind; [apply sim_info|intros _].
  destruct (Docker.labels c !! "com.docker.compose.project"); [|apply sim_ret].
  apply sim_bind.
  - destruct (acc !! _); [apply sim_ret|].
    apply sim_bind; [apply sim_time_same|intros t; apply sim_ret].
  - intros entry. apply sim_bind; [|intros n; apply sim_ret].
    destruct (Docker.labels c !! "com.docker.compose.container-number");
      [apply sim_ret|apply sim_raise].
Qed.

(** Dropping the containers without the project label from a snapshot
    changes the loop by log lines only. *)
Lemma sim_for_each_populate host cs acc :
  sim (for_each (populate_container host) acc
         (filter (λ c, is_Some (Docker.labels c !! "com.docker.compose.project")) cs))
      (for_each (populate_container host) acc cs).
Proof.
  revert acc. induction cs as [|c cs IH]; intros acc; [apply sim_ret|].
  rewrite filter_cons. case_decide as Hc.
  - cbn [for_each]. apply sim_bind; [apply sim_populate_container|intros acc'; apply IH].
  - apply eq_None_not_Some in Hc. intros s1 s2 H. cbn [for_each]. unfold bind.
    rewrite populate_container_unlabelled by done. apply IH.
    apply observable_eq in H as (? & ? & ?). by apply observable_eq.
Qed.

Lemma sim_populate_cache host :
  sim (populate_cache (managed_only host)) (populate_cache host).
Proof.
  intros s1 s2 H. rewrite !populate_cache_unfold. cbv zeta.
  pose proof H as (Hc & Hr & Hd)%observable_eq.
  change (containers_list (managed_only host) (docker_calls s1))
    with (filter (λ c, is_Some (Docker.labels c !! "com.docker.compose.project"))
            <$> containers_list host (docker_calls s1)).
  rewrite Hd. destruct (containers_list host (docker_calls s2)) as [cs|]; cbn [fmap option_fmap option_map].
  - change (populate_container (managed_only host)) with (populate_container host).
    destruct (sim_for_each_populate host cs ∅
                (called (logged "populating cache" s1))
                (called (logged "populating cache" s2))) as [Ho Hs].
    { apply observable_eq. cbn. by rewrite Hc, Hr, Hd. }
    destruct (for_each _ _ _ (called (logged _ s1))) as [[v1|e1] s1'],
             (for_each _ _ _ (called (logged _ s2))) as [[v2|e2] s2'];
      cbn in Ho, Hs; try done.
    + injection Ho as ->. split; [done|].
      apply observable_eq in Hs as (? & ? & ?). by apply observable_eq.
    + by injection Ho as ->.
  - split; [done|]. apply observable_eq. cbn. by rewrite Hc, Hr, Hd.
Qed.

Lemma sim_answer host q ttl : sim (answer (managed_only host) q ttl) (answer host q ttl).
Proof.
  unfold answer. apply sim_bind; [apply sim_get_container_cache|intros cache].
  destruct (cache !! _) as [entry|]; [|apply sim_raise].
  change (respond (managed_only host) q entry ttl) with (respond host q entry ttl).
  by intros s1 s2 H.
Qed.

Lemma sim_compose_project_rule host q :
  sim (compose_project_rule (managed_only host) q) (compose_project_rule host q).
Proof.
  unfold compose_project_rule.
  apply sim_bind; [apply sim_get_container_cache|intros cache].
  apply sim_bind; [destruct (cache !! _); [apply sim_ret|apply sim_populate_cache]|intros _].
  apply sim_bind; [apply sim_get_container_cache|intros cache'].
  destruct (cache' !! _) as [container|]; [|apply sim_ret].
  apply sim_bind; [apply sim_time|intros now].
  apply sim_bind.
  - destruct (gt _ _); [|apply sim_ret].
    apply sim_bind; [apply sim_populate_cache|intros _].
    apply sim_bind; [apply sim_get_container_cache|intros ?; apply sim_ret].
  - intros [container'|]; [|apply sim_ret].
    apply sim_bind; [apply sim_answer|intros ?; apply sim_ret].
Qed.

Lemma sim_serve host queries s1 s2 :
  observable s1 = observable s2 →
  (serve (managed_only host) queries s1).1 = (serve host queries s2).1
  ∧ observable (serve (managed_only host) queries s1).2 = observable (serve host queries s2).2.
Proof.
  revert s1 s2. induction queries as [|q queries IH]; intros s1 s2 H; [done|].
  cbn [serve fst snd].
  destruct (sim_compose_project_rule host q s1 s2 H) as [Ho Hs].
  destruct (IH _ _ Hs) as [IHo IHs]. by rewrite Ho, IHo.
Qed.

(** C6 (exclusion).  Containers whose labels lack the project label leave no
    trace in the cache or in any answer.  A rebuild, and any run of queries,
    end the same way, with the same outcomes and responses, the same cache
    and the same counters, on a host whose runtime never reports such
    containers; only log lines differ.  And in the cache a completed rebuild
    installs, every entry stands under the key of some container of the
    snapshot that has the project label, and every address of the entry is
    the address of a network attachment of such a container filed under
    that key. *)
Theorem C6_exclusion host :
  (∀ s,
     (populate_cache (managed_only host) s).1 = (populate_cache host s).1
     ∧ observable (populate_cache (managed_only host) s).2
       = observable (populate_cache host s).2)
  ∧ (∀ queries s,
       (serve (managed_only host) queries s).1 = (serve host queries s).1
       ∧ observable (serve (managed_only host) queries s).2
         = observable (serve host queries s).2)
  ∧ (∀ s s' cs k entry,
       populate_cache host s = (Returned tt, s') →
       containers_list host (docker_calls s) = Some cs →
       container_cache s' !! k = Some entry →
       (∃ c, c ∈ cs ∧ is_Some (Docker.labels c !! "com.docker.compose.project")
             ∧ key_of host c = Some k)
       ∧ ∀ a,
           (a ∈ ipv4_addresses entry →
            ∃ c net, c ∈ cs ∧ is_Some (Docker.labels c !! "com.docker.compose.project")
                     ∧ key_of host c = Some k
                     ∧ net ∈ Docker.networks c ∧ Docker.IPAddress net.2 = Some a)
           ∧ (a ∈ ipv6_addresses entry →
              ∃ c net, c ∈ cs ∧ is_Some (Docker.labels c !! "com.docker.compose.project")
                       ∧ key_of host c = Some k
                       ∧ net ∈ Docker.networks c ∧ Docker.GlobalIPv6Address net.2 = Some a)).
Proof.
  assert (∀ c k, key_of host c = Some k →
                 is_Some (Docker.labels c !! "com.docker.compose.project")) as Hlabelled.
  { intros c k. unfold key_of. destruct (Docker.labels c !! _); [eauto|done]. }
  split_and!.
  - intros s. by apply sim_populate_cache.
  - intros queries s. by apply sim_serve.
  - intros s s' cs k entry Hpop Hcs Hentry.
    destruct (populate_cache_returned host s s' Hpop) as (cs' & Hcs' & Hlook).
    assert (cs' = cs) as -> by congruence.
    destruct (Hlook k) as (H4 & H6 & Hin).
    unfold ipv4_at, ipv6_at in *. rewrite Hentry in H4, H6, Hin. cbn in H4, H6.
    split.
    + destruct (proj1 (members_nonempty host k cs)) as (c & Hc & Hk); [apply Hin; eauto|].
      exists c. eauto.
    + intros a. split; intros Ha.
      * rewrite H4 in Ha. apply list_elem_of_bind in Ha as (c & Ha & Hc).
        apply list_elem_of_filter in Hc as [Hk Hc].
        apply elem_of_ipv4_of in Ha as (net & Hnet & Hip & _).
        exists c, net. split_and!; eauto.
      * rewrite H6 in Ha. apply list_elem_of_bind in Ha as (c & Ha & Hc).
        apply list_elem_of_filter in Hc as [Hk Hc].
        apply elem_of_ipv6_of in Ha as (net & Hnet & Hip & _).
        exists c, net. split_and!; eauto.
Qed.

(** ** Further properties of the builder *)

Lemma add_networks_container_ids nets cc :
  container_ids (foldl add_network cc nets) = container_ids cc.
Proof.
  revert cc. induction nets as [|n nets IH]; intros cc; cbn [foldl]; [done|].
  rewrite IH. unfold add_network.
  by destruct (truthy (default "" (Docker.IPAddress n.2)));
    destruct (truthy (default "" (Docker.GlobalIPv6Address n.2))).
Qed.

Lemma add_networks_names nets cc :
  container_name (foldl add_network cc nets) = container_name cc
  ∧ project_name (foldl add_network cc nets) = project_name cc.
Proof.
  revert cc. induction nets as [|n nets IH]; intros cc; cbn [foldl]; [done|].
  destruct (IH (add_network cc n)) as [-> ->]. unfold add_network.
  by destruct (truthy (default "" (Docker.IPAddress n.2)));
    destruct (truthy (default "" (Docker.GlobalIPv6Address n.2))).
Qed.

(** What one completed pass of the loop body did: nothing but a log line
    for a container without the project label; otherwise it wrote the entry
    under the container's key, with the ordinal recorded, and the names and
    the stamp either kept from the entry that was there or set from this
    container and one new clock reading. *)
Lemma populate_container_inv host acc c s acc' s' :
  populate_container host acc c s = (Returned acc', s') →
  (key_of host c = None ∧ acc' = acc ∧ clock_reads s' = clock_reads s)
  ∨ ∃ k p n e',
      Docker.labels c !! "com.docker.compose.project" = Some p
      ∧ key_of host c = Some k
      ∧ k = cache_key_of host (Docker.labels c !! "com.docker.compose.service") p
      ∧ Docker.labels c !! "com.docker.compose.container-number" = Some n
      ∧ acc' = <[k := e']> acc
      ∧ container_ids e' = <[n := Docker.id c]> (ids_at acc k)
      ∧ match acc !! k with
        | Some e0 =>
            container_name e' = container_name e0
            ∧ project_name e' = project_name e0
            ∧ last_updated e' = last_updated e0
            ∧ clock_reads s' = clock_reads s
        | None =>
            container_name e' = Docker.labels c !! "com.docker.compose.service"
            ∧ project_name e' = p
            ∧ last_updated e' = time_time host (clock_reads s)
            ∧ clock_reads s' = S (clock_reads s)
        end.
Proof.
  unfold populate_container, key_of, bind, info, getitem, ret, raise, time, ids_at.
  destruct (Docker.labels c !! "com.docker.compose.project") as [p|] eqn:Hp.
  2:{ intros [= <- <-]. by left. }
  set (key := cache_key_of host _ p).
  destruct (acc !! key) as [cc|] eqn:Hk;
    (destruct (Docker.labels c !! "com.docker.compose.container-number") as [n|];
     [|discriminate]); cbn -[cache_key_of]; intros [= <- <-]; right;
    eexists key, p, n, _; rewrite Hk; cbn [from_option].
  - split_and!; try done;
      by rewrite ?add_networks_container_ids, ?add_networks_last_updated,
           ?(proj1 (add_networks_names _ _)), ?(proj2 (add_networks_names _ _)).
  - split_and!; try done; try (by rewrite insert_insert_eq);
      by rewrite ?add_networks_container_ids, ?add_networks_last_updated,
           ?(proj1 (add_networks_names _ _)), ?(proj2 (add_networks_names _ _)).
Qed.

(** The clock is only ever read forwards, whether the loop completes or
    raises. *)
Lemma populate_container_clock_le host acc c s :
  (clock_reads s ≤ clock_reads (populate_container host acc c s).2)%nat.
Proof.
  unfold populate_container, bind, info, getitem, ret, raise, time.
  destruct (Docker.labels c !! "com.docker.compose.project"); [|done].
  destruct (acc !! _);
    destruct (Docker.labels c !! "com.docker.compose.container-number"); cbn; lia.
Qed.

Lemma for_each_populate_clock_le host cs acc s :
  (clock_reads s ≤ clock_reads (for_each (populate_container host) acc cs s).2)%nat.
Proof.
  revert acc s. induction cs as [|c cs IH]; intros acc s; [done|].
  cbn [for_each]. unfold bind.
  pose proof (populate_container_clock_le host acc c s) as Hle.
  destruct (populate_container host acc c s) as [[acc'|e] s1]; cbn in *; [|done].
  specialize (IH acc' s1). lia.
Qed.

Lemma populate_cache_clock_le host s :
  (clock_reads s ≤ clock_reads (populate_cache host s).2)%nat.
Proof.
  rewrite populate_cache_unfold. cbv zeta.
  destruct (containers_list host (docker_calls s)) as [cs|]; [|done].
  pose proof (for_each_populate_clock_le host cs ∅
                (called (logged "populating cache" s))) as Hle.
  by destruct (for_each _ _ _ _) as [[?|?] ?].
Qed.

(** The ordinal-to-id map of each key after a completed loop. *)
Lemma for_each_populate_ids host cs acc s cache s' :
  for_each (populate_container host) acc cs s = (Returned cache, s') →
  ∀ k, ids_at cache k = record_ids (ids_at acc k) (members host k cs).
Proof.
  revert acc s. induction cs as [|c cs IH]; intros acc s.
  - by intros [= <- <-] k.
  - cbn [for_each]. unfold bind.
    destruct (populate_container host acc c s) as [[acc'|e] s1] eqn:Hstep; [|discriminate].
    intros Hrest k. rewrite (IH _ _ Hrest k). unfold members. rewrite filter_cons.
    destruct (populate_container_inv _ _ _ _ _ _ Hstep)
      as [(Hk & -> & _)|(k' & p & n & e' & _ & Hk & _ & Hn & -> & Hids & _)].
    + rewrite decide_False by congruence. done.
    + destruct (decide (key_of host c = Some k)) as [Heq|Hne].
      * assert (k' = k) as -> by congruence. cbn [foldl record_ids]. unfold record_ids.
        cbn [foldl]. rewrite Hn. f_equal. unfold ids_at at 1.
        by rewrite lookup_insert_eq.
      * f_equal. unfold ids_at. rewrite lookup_insert_ne; [done|congruence].
Qed.

(** Entries stay under the key made of their own names. *)
Lemma for_each_populate_keyed host cs acc s cache s' :
  for_each (populate_container host) acc cs s = (Returned cache, s') →
  keyed host acc → keyed host cache.
Proof.
  revert acc s. induction cs as [|c cs IH]; intros acc s.
  - by intros [= <- <-].
  - cbn [for_each]. unfold bind.
    destruct (populate_container host acc c s) as [[acc'|e] s1] eqn:Hstep; [|discriminate].
    intros Hrest Hacc. apply (IH _ _ Hrest).
    destruct (populate_container_inv _ _ _ _ _ _ Hstep)
      as [(_ & -> & _)|(k' & p & n & e' & _ & _ & Hkey & _ & -> & _ & Hcase)]; [done|].
    intros k e. destruct (decide (k' = k)) as [<-|Hne].
    + rewrite lookup_insert_eq. intros [= <-].
      destruct (acc !! k') as [e0|] eqn:H0.
      * destruct Hcase as (-> & -> & _). by apply Hacc.
      * by destruct Hcase as (-> & -> & _).
    + rewrite lookup_insert_ne by done. apply Hacc.
Qed.

(** One clock reading per new entry, and every new entry stamped by one of
    the readings of this loop. *)
Lemma for_each_populate_stamps host cs acc s cache s' :
  for_each (populate_container host) acc cs s = (Returned cache, s') →
  (clock_reads s' + size acc = clock_reads s + size cache)%nat
  ∧ ∀ lo, (lo ≤ clock_reads s)%nat →
          stamped_between host lo (clock_reads s) acc →
          stamped_between host lo (clock_reads s') cache.
Proof.
  revert acc s. induction cs as [|c cs IH]; intros acc s.
  - intros [= <- <-]. split; [lia|done].
  - cbn [for_each]. unfold bind.
    destruct (populate_container host acc c s) as [[acc'|e] s1] eqn:Hstep; [|discriminate].
    intros Hrest. destruct (IH _ _ Hrest) as [IHsize IHstamp].
    destruct (populate_container_inv _ _ _ _ _ _ Hstep)
      as [(_ & -> & Hclock)|(k' & p & n & e' & _ & _ & _ & _ & -> & _ & Hcase)].
    + rewrite Hclock in *. done.
    + destruct (acc !! k') as [e0|] eqn:H0.
      * destruct Hcase as (_ & _ & Hlu & Hclock). rewrite Hclock in *. split.
        { rewrite map_size_insert_Some in IHsize by eauto. done. }
        intros lo Hlo Hacc. apply IHstamp; [done|]. intros k e.
        destruct (decide (k' = k)) as [<-|Hne].
        -- rewrite lookup_insert_eq. intros [= <-]. rewrite Hlu. by eapply Hacc.
        -- rewrite lookup_insert_ne by done. apply Hacc.
      * destruct Hcase as (_ & _ & Hlu & Hclock). rewrite Hclock in *. split.
        { rewrite map_size_insert_None in IHsize by done. lia. }
        intros lo Hlo Hacc. apply IHstamp; [lia|]. intros k e.
        destruct (decide (k' = k)) as [<-|Hne].
        -- rewrite lookup_insert_eq. intros [= <-]. exists (clock_reads s).
           split; [lia|done].
        -- rewrite lookup_insert_ne by done. intros He.
           destruct (Hacc k e He) as (i & Hi & ->). exists i. split; [lia|done].
Qed.

(** The last container that carries an ordinal decides its id. *)
Lemma record_ids_lookup cs m n :
  record_ids m cs !! n
  = match last (with_ordinal n cs) with
    | Some c => Some (Docker.id c)
    | None => m !! n
    end.
Proof.
  revert m. induction cs as [|c cs IH]; intros m; [done|].
  unfold record_ids, with_ordinal in *. cbn [foldl]. rewrite IH, filter_cons.
  destruct (Docker.labels c !! "com.docker.compose.container-number") as [n'|] eqn:Hn.
  - destruct (decide (Some n' = Some n)) as [[= ->]|Hne].
    + rewrite last_cons. destruct (last (filter _ cs)); [done|].
      by rewrite lookup_insert_eq.
    + destruct (last (filter _ cs)); [done|].
      rewrite lookup_insert_ne; [done|congruence].
  - rewrite decide_False by done. done.
Qed.

(** The loop never looks at the installed cache. *)
Lemma populate_container_with_cache host old acc c s :
  populate_container host acc c (with_cache old s)
  = ((populate_container host acc c s).1, with_cache old (populate_container host acc c s).2).
Proof.
  unfold populate_container, bind, info, getitem, ret, raise, time.
  destruct (Docker.labels c !! "com.docker.compose.project"); [|done].
  destruct (acc !! _);
    by destruct (Docker.labels c !! "com.docker.compose.container-number").
Qed.

Lemma for_each_populate_with_cache host old cs acc s :
  for_each (populate_container host) acc cs (with_cache old s)
  = ((for_each (populate_container host) acc cs s).1,
     with_cache old (for_each (populate_container host) acc cs s).2).
Proof.
  revert acc s. induction cs as [|c cs IH]; intros acc s; [done|].
  cbn [for_each]. unfold bind. rewrite populate_container_with_cache.
  destruct (populate_container host acc c s) as [[acc'|e] s1]; cbn [fst snd]; [|done].
  apply IH.
Qed.

(** A rebuild on a snapshot whose project-labelled containers all carry
    the ordinal label: the loop completes and its result is installed. *)
Lemma populate_cache_built host s cs :
  containers_list host (docker_calls s) = Some cs →
  (∀ c, c ∈ cs →
        is_Some (Docker.labels c !! "com.docker.compose.project") →
        is_Some (Docker.labels c !! "com.docker.compose.container-number")) →
  ∃ cache s2,
    for_each (populate_container host) ∅ cs (called (logged "populating cache" s))
    = (Returned cache, s2)
    ∧ populate_cache host s = (Returned tt, with_cache cache s2).
Proof.
  intros Hcs Hall. rewrite populate_cache_unfold. cbv zeta. rewrite Hcs.
  destruct (for_each_populate_returns host cs ∅
              (called (logged "populating cache" s)) Hall) as [cache Hloop].
  destruct (for_each _ _ _ _) as [o s2]. cbn in Hloop. subst o. by eexists _, _.
Qed.

Ltac each_sample_container :=
  let c := fresh "c" in
  let Hc := fresh "Hc" in
  let Hp := fresh "Hp" in
  intros c Hc Hp;
  repeat (apply elem_of_cons in Hc as [->|Hc]);
  try (by apply elem_of_nil in Hc);
  try (by eexists);
  destruct Hp as [? Hp]; vm_compute in Hp; discriminate.

(** X1 (a rebuild replaces the cache).  On a snapshot whose project-labelled
    containers all carry the ordinal label, the rebuild completes and the
    cache it installs has a key exactly when some container of the snapshot
    is filed under it; and it is the same cache, and the same application
    object, whatever cache was installed before: nothing of the old cache
    survives. *)
Theorem X1_rebuild_replaces host s cs :
  containers_list host (docker_calls s) = Some cs →
  (∀ c, c ∈ cs →
        is_Some (Docker.labels c !! "com.docker.compose.project") →
        is_Some (Docker.labels c !! "com.docker.compose.container-number")) →
  ∃ s',
    populate_cache host s = (Returned tt, s')
    ∧ (∀ k, is_Some (container_cache s' !! k) ↔ ∃ c, c ∈ cs ∧ key_of host c = Some k)
    ∧ ∀ old, populate_cache host (with_cache old s) = (Returned tt, s').
Proof.
  intros Hcs Hall.
  destruct (populate_cache_built host s cs Hcs Hall) as (cache & s2 & Hloop & Hpop).
  exists (with_cache cache s2). split_and!; [done| |].
  - intros k. destruct (populate_cache_returned host s _ Hpop) as (cs' & Hcs' & Hlook).
    assert (cs' = cs) as -> by congruence.
    destruct (Hlook k) as (_ & _ & ->). apply members_nonempty.
  - intros old. rewrite populate_cache_unfold. cbv zeta.
    change (docker_calls (with_cache old s)) with (docker_calls s). rewrite Hcs.
    change (called (logged "populating cache" (with_cache old s)))
      with (with_cache old (called (logged "populating cache" s))).
    rewrite for_each_populate_with_cache, Hloop. done.
Qed.

Lemma X1_rebuild_replaces_witness :
  ∃ s',
    populate_cache Sample.three_containers setup = (Returned tt, s')
    ∧ (∀ k, is_Some (container_cache s' !! k)
            ↔ ∃ c, c ∈ [Sample.web1; Sample.stray; Sample.web2]
                   ∧ key_of Sample.three_containers c = Some k)
    ∧ ∀ old, populate_cache Sample.three_containers (with_cache old setup) = (Returned tt, s').
Proof.
  apply (X1_rebuild_replaces Sample.three_containers setup
           [Sample.web1; Sample.stray; Sample.web2]); [reflexivity|each_sample_container].
Defined.

(** X2 (addresses, in order and with repeats).  In the cache a rebuild
    installs, the [ipv4_addresses] of the entry under a key are exactly the
    non-empty [IPAddress] values of the network attachments of the
    containers filed under that key, container by container in snapshot
    order and attachment by attachment; an address met twice is listed
    twice.  Likewise [ipv6_addresses] and [GlobalIPv6Address]. *)
Theorem X2_addresses_in_order host s cs :
  containers_list host (docker_calls s) = Some cs →
  (∀ c, c ∈ cs →
        is_Some (Docker.labels c !! "com.docker.compose.project") →
        is_Some (Docker.labels c !! "com.docker.compose.container-number")) →
  ∃ s',
    populate_cache host s = (Returned tt, s')
    ∧ ∀ k e, container_cache s' !! k = Some e →
        ipv4_addresses e = members host k cs ≫= (λ c, ipv4_of (Docker.networks c))
        ∧ ipv6_addresses e = members host k cs ≫= (λ c, ipv6_of (Docker.networks c)).
Proof.
  intros Hcs Hall.
  destruct (populate_cache_built host s cs Hcs Hall) as (cache & s2 & Hloop & Hpop).
  exists (with_cache cache s2). split; [done|]. intros k e He.
  destruct (for_each_populate_lookup _ _ _ _ _ _ Hloop k) as (H4 & H6 & _).
  unfold ipv4_at, ipv6_at in *. cbn in He. rewrite He, lookup_empty in H4, H6. done.
Qed.

Lemma X2_addresses_in_order_witness :
  ∃ s',
    populate_cache Sample.three_containers setup = (Returned tt, s')
    ∧ ∀ k e, container_cache s' !! k = Some e →
        ipv4_addresses e
        = members Sample.three_containers k [Sample.web1; Sample.stray; Sample.web2]
            ≫= (λ c, ipv4_of (Docker.networks c))
        ∧ ipv6_addresses e
          = members Sample.three_containers k [Sample.web1; Sample.stray; Sample.web2]
              ≫= (λ c, ipv6_of (Docker.networks c)).
Proof.
  apply (X2_addresses_in_order Sample.three_containers setup
           [Sample.web1; Sample.stray; Sample.web2]); [reflexivity|each_sample_container].
Defined.

(** X3 (ordinals: the last write wins).  In the cache a rebuild installs,
    the [container_ids] of the entry under a key maps an ordinal to the id
    of the last container of the snapshot that is filed under that key and
    carries that ordinal, and has no other ordinal. *)
Theorem X3_last_ordinal_wins host s cs :
  containers_list host (docker_calls s) = Some cs →
  (∀ c, c ∈ cs →
        is_Some (Docker.labels c !! "com.docker.compose.project") →
        is_Some (Docker.labels c !! "com.docker.compose.container-number")) →
  ∃ s',
    populate_cache host s = (Returned tt, s')
    ∧ ∀ k e n, container_cache s' !! k = Some e →
        container_ids e !! n = Docker.id <$> last (with_ordinal n (members host k cs)).
Proof.
  intros Hcs Hall.
  destruct (populate_cache_built host s cs Hcs Hall) as (cache & s2 & Hloop & Hpop).
  exists (with_cache cache s2). split; [done|]. intros k e n He.
  pose proof (for_each_populate_ids _ _ _ _ _ _ Hloop k) as Hids.
  unfold ids_at in Hids. cbn in He. rewrite He, lookup_empty in Hids. cbn in Hids.
  rewrite Hids, record_ids_lookup, lookup_empty. by destruct (last _).
Qed.

Lemma X3_last_ordinal_wins_witness :
  ∃ s',
    populate_cache Sample.three_containers setup = (Returned tt, s')
    ∧ ∀ k e n, container_cache s' !! k = Some e →
        container_ids e !! n
        = Docker.id <$> last (with_ordinal n
                                (members Sample.three_containers k
                                   [Sample.web1; Sample.stray; Sample.web2])).
Proof.
  apply (X3_last_ordinal_wins Sample.three_containers setup
           [Sample.web1; Sample.stray; Sample.web2]); [reflexivity|each_sample_container].
Defined.

(** X4 (entries know their key).  In the cache a rebuild installs, every
    entry stands under the key spelled by its own [container_name] and
    [project_name]. *)
Theorem X4_entries_keyed host s s' :
  populate_cache host s = (Returned tt, s') → keyed host (container_cache s').
Proof.
  rewrite populate_cache_unfold. cbv zeta.
  destruct (containers_list host (docker_calls s)) as [cs|]; [|discriminate].
  destruct (for_each _ _ _ _) as [[cache|?] s2] eqn:Hloop; [|discriminate].
  intros [= <-]. cbn. apply (for_each_populate_keyed _ _ _ _ _ _ Hloop).
  intros k e. by rewrite lookup_empty.
Qed.

Lemma X4_entries_keyed_witness :
  keyed Sample.three_containers
    (container_cache (populate_cache Sample.three_containers setup).2).
Proof.
  apply (X4_entries_keyed Sample.three_containers setup). vm_compute. reflexivity.
Defined.

(** X5 (one stamp per entry).  A completed rebuild reads the clock once for
    each entry of the cache it installs, when the entry is created: every
    [last_updated] is one of the clock readings taken during that rebuild,
    and a container merged into an existing entry costs no reading and does
    not change the stamp. *)
Theorem X5_one_stamp_per_entry host s s' :
  populate_cache host s = (Returned tt, s') →
  clock_reads s' = (clock_reads s + size (container_cache s'))%nat
  ∧ stamped_between host (clock_reads s) (clock_reads s') (container_cache s').
Proof.
  rewrite populate_cache_unfold. cbv zeta.
  destruct (containers_list host (docker_calls s)) as [cs|]; [|discriminate].
  destruct (for_each _ _ _ _) as [[cache|?] s2] eqn:Hloop; [|discriminate].
  intros [= <-]. cbn.
  destruct (for_each_populate_stamps _ _ _ _ _ _ Hloop) as [Hsize Hstamp].
  rewrite map_size_empty in Hsize. cbn in Hsize. split; [lia|].
  apply (Hstamp (clock_reads s)); [done|]. intros k e. by rewrite lookup_empty.
Qed.

Lemma X5_one_stamp_per_entry_witness :
  clock_reads (populate_cache Sample.three_containers setup).2
  = (clock_reads setup
     + size (container_cache (populate_cache Sample.three_containers setup).2))%nat
  ∧ stamped_between Sample.three_containers (clock_reads setup)
      (clock_reads (populate_cache Sample.three_containers setup).2)
      (container_cache (populate_cache Sample.three_containers setup).2).
Proof.
  apply (X5_one_stamp_per_entry Sample.three_containers setup). vm_compute. reflexivity.
Defined.

(** ** Further properties of the rule *)

Lemma int_nonpos (x : Q) : (x <= 0)%Q → (int x ≤ 0)%Z.
Proof.
  destruct x as [n d]. unfold Qle, int. cbn. intros H.
  assert (n ≤ 0)%Z as Hn by lia.
  replace n with (- (- n)) by lia. rewrite Z.quot_opp_l by lia.
  pose proof (Z.quot_pos (- n) (Z.pos d)). lia.
Qed.

(** An entry stamped at or after the reading [now] gets a TTL of at least
    60; one stamped at or before it, and at most 60 seconds old, a TTL from
    0 to 60. *)
Lemma ttl_at_stamped_later clock i j e :
  monotone clock → (j ≤ i)%nat → last_updated e = clock i → (60 ≤ ttl_at (clock j) e)%Z.
Proof.
  intros Hmono Hji Hlu. unfold ttl_at. rewrite Hlu.
  pose proof (Hmono j i Hji) as Hle.
  pose proof (int_nonpos _ (fsub_nonpos _ _ Hle)). lia.
Qed.

Lemma ttl_at_stamped_earlier clock i j e :
  monotone clock → (i ≤ j)%nat → last_updated e = clock i →
  gt (fsub (clock j) (last_updated e)) 60%Q = false →
  (0 ≤ ttl_at (clock j) e ≤ 60)%Z.
Proof.
  intros Hmono Hij Hlu Hfresh. apply gt_false in Hfresh.
  apply ttl_at_bounds; [|done]. rewrite Hlu. by apply Hmono.
Qed.

Lemma stamped_between_weaken host lo hi lo' hi' cache :
  stamped_between host lo hi cache → (lo' ≤ lo)%nat → (hi ≤ hi')%nat →
  stamped_between host lo' hi' cache.
Proof.
  intros H Hlo Hhi k e He. destruct (H k e He) as (i & Hi & Hlu).
  exists i. split; [lia|done].
Qed.

(** What a rebuild does to the stamps: completed, every entry of the new
    cache carries a reading of this rebuild; raised, the cache is the old
    one.  Either way the clock has not gone back. *)
Lemma populate_cache_stamped_between host s :
  (clock_reads s ≤ clock_reads (populate_cache host s).2)%nat
  ∧ match (populate_cache host s).1 with
    | Returned _ =>
        stamped_between host (clock_reads s) (clock_reads (populate_cache host s).2)
          (container_cache (populate_cache host s).2)
    | Raised _ => container_cache (populate_cache host s).2 = container_cache s
    end.
Proof.
  split; [apply populate_cache_clock_le|].
  destruct (populate_cache host s) as [[[]|e] s'] eqn:Hpop; cbn [fst snd].
  - revert Hpop. rewrite populate_cache_unfold. cbv zeta.
    destruct (containers_list host (docker_calls s)) as [cs|]; [|discriminate].
    destruct (for_each _ _ _ _) as [[cache|?] s2] eqn:Hloop; [|discriminate].
    intros [= <-]. cbn.
    destruct (for_each_populate_stamps _ _ _ _ _ _ Hloop) as [_ Hstamp].
    apply (Hstamp (clock_reads s)); [done|]. intros k e. by rewrite lookup_empty.
  - by eapply populate_cache_raised.
Qed.

(** After a miss and a rebuild that filed the name, the rule goes on as
    if it had been called with the new cache. *)
Lemma compose_project_rule_after_miss host q s s1 entry :
  container_cache s !! nserver.name q = None →
  populate_cache host s = (Returned tt, s1) →
  container_cache s1 !! nserver.name q = Some entry →
  compose_project_rule host q s = compose_project_rule host q s1.
Proof.
  intros H0 Hpop H1. rewrite !compose_project_rule_unfold, H0, Hpop, H1.
  cbv beta iota zeta. by rewrite H1.
Qed.

(** A response the rule fills carries the TTL it was filled at. *)
Lemma served_ttl host q entry ttl resp :
  served (respond host q entry ttl) = Returned (Some resp) →
  Forall (λ a, nserver.ttl_of a = ttl) (nserver.answers resp).
Proof.
  intros H. apply served_returned in H as (r & Hr & [= <-]).
  apply respond_returned in Hr as [-> _]. apply response_for_ttl.
Qed.

(** The rule on a stored name, under a clock that never runs backwards:
    the stamps stay in order and no TTL is negative. *)
Lemma compose_project_rule_stored_stamped host q s entry :
  monotone (time_time host) →
  stamped host s →
  container_cache s !! nserver.name q = Some entry →
  stamped host (compose_project_rule host q s).2
  ∧ ∀ resp, (compose_project_rule host q s).1 = Returned (Some resp) →
            Forall (λ a, (0 ≤ nserver.ttl_of a)%Z) (nserver.answers resp).
Proof.
  intros Hmono Hst H0. destruct (Hst _ _ H0) as (i & Hi & Hlu).
  rewrite compose_project_rule_unfold, H0. cbv beta iota zeta. rewrite H0.
  destruct (gt _ _) eqn:Hgt.
  - destruct (populate_cache_stamped_between host (ticked s)) as [Hclock Hcase].
    destruct (populate_cache host (ticked s)) as [[[]|e] s2]; cbn [fst snd] in *.
    + assert (stamped host s2) as Hst2
        by (eapply stamped_between_weaken; [done|lia|done]).
      destruct (container_cache s2 !! nserver.name q) as [entry'|] eqn:H2;
        cbn [fst snd]; (split; [done|]); [|done].
      intros resp Hresp. destruct (Hcase _ _ H2) as (i' & Hi' & Hlu').
      eapply Forall_impl; [by eapply served_ttl|]. cbn. intros a ->.
      pose proof (ttl_at_stamped_later (time_time host) i' (clock_reads s) entry'
                    Hmono ltac:(cbn in Hi'; lia) Hlu'). lia.
    + split; [|done]. intros k e0 He0. rewrite Hcase in He0.
      destruct (Hst k e0 He0) as (i0 & Hi0 & Hlu0). exists i0. split; [cbn in *; lia|done].
  - cbn [fst snd]. split.
    + eapply stamped_between_weaken; [exact Hst|lia|cbn; lia].
    + intros resp Hresp. eapply Forall_impl; [by eapply served_ttl|]. cbn. intros a ->.
      pose proof (ttl_at_stamped_earlier (time_time host) i (clock_reads s) entry
                    Hmono ltac:(lia) Hlu Hgt). lia.
Qed.

Lemma compose_project_rule_stamped host q s :
  monotone (time_time host) →
  stamped host s →
  stamped host (compose_project_rule host q s).2
  ∧ ∀ resp, (compose_project_rule host q s).1 = Returned (Some resp) →
            Forall (λ a, (0 ≤ nserver.ttl_of a)%Z) (nserver.answers resp).
Proof.
  intros Hmono Hst.
  destruct (container_cache s !! nserver.name q) as [entry|] eqn:H0.
  { by eapply compose_project_rule_stored_stamped. }
  destruct (populate_cache_stamped_between host s) as [Hclock Hcase].
  destruct (populate_cache host s) as [[[]|e] s1] eqn:Hpop; cbn [fst snd] in *.
  - assert (stamped host s1) as Hst1
      by (eapply stamped_between_weaken; [done|lia|done]).
    destruct (container_cache s1 !! nserver.name q) as [entry|] eqn:H1.
    + rewrite (compose_project_rule_after_miss host q s s1 entry H0 Hpop H1).
      by eapply compose_project_rule_stored_stamped.
    + rewrite compose_project_rule_unfold, H0, Hpop, H1. done.
  - rewrite compose_project_rule_unfold, H0, Hpop. cbn [fst snd]. split; [|done].
    intros k e0 He0. rewrite Hcase in He0.
    destruct (Hst k e0 He0) as (i0 & Hi0 & Hlu0). exists i0. split; [lia|done].
Qed.

(** X6 (no negative TTL).  Under a clock that never runs backwards, in any
    run of queries served from the application as set up, no answer carries
    a negative TTL. *)
Theorem X6_ttl_never_negative host queries :
  monotone (time_time host) →
  Forall (λ o, ∀ resp, o = Returned (Some resp) →
                       Forall (λ a, (0 ≤ nserver.ttl_of a)%Z) (nserver.answers resp))
    (serve host queries setup).1.
Proof.
  intros Hmono.
  assert (stamped host setup) as Hst.
  { intros k e. unfold setup. cbn. by rewrite lookup_empty. }
  revert Hst. generalize setup.
  induction queries as [|q queries IH]; intros s Hst; [constructor|].
  cbn [serve fst snd].
  destruct (compose_project_rule_stamped host q s Hmono Hst) as [Hst' Httl].
  constructor; [done|by apply IH].
Qed.

Lemma X6_ttl_never_negative_witness :
  Forall (λ o, ∀ resp, o = Returned (Some resp) →
                       Forall (λ a, (0 ≤ nserver.ttl_of a)%Z) (nserver.answers resp))
    (serve Sample.three_containers [Sample.query_A; Sample.query_AAAA] setup).1.
Proof.
  apply (X6_ttl_never_negative Sample.three_containers [Sample.query_A; Sample.query_AAAA]).
  intros i j _. cbn. discriminate.
Defined.

(** X7 (TTL after a staleness rebuild).  Under a clock that never runs
    backwards, when the float difference [now - last_updated] of the stored
    entry is above 60 and the rule answers after rebuilding, it answers
    from the new entry, which is stamped at or after [now] was read: every
    answer carries the TTL [60 - int(now - last_updated)] of the new entry,
    which is at least 60, and at least 61 when the new entry is stamped a
    second or more after [now]. *)
Theorem X7_ttl_after_stale_rebuild host q s entry resp s' :
  monotone (time_time host) →
  container_cache s !! nserver.name q = Some entry →
  (60 < fsub (time_time host (clock_reads s)) (last_updated entry))%Q →
  compose_project_rule host q s = (Returned (Some resp), s') →
  ∃ entry',
    container_cache s' !! nserver.name q = Some entry'
    ∧ (time_time host (clock_reads s) <= last_updated entry')%Q
    ∧ Forall (λ a, nserver.ttl_of a = ttl_at (time_time host (clock_reads s)) entry'
                   ∧ (60 ≤ nserver.ttl_of a)%Z) (nserver.answers resp)
    ∧ ((1 <= last_updated entry' - time_time host (clock_reads s))%Q →
       Forall (λ a, (61 ≤ nserver.ttl_of a)%Z) (nserver.answers resp)).
Proof.
  intros Hmono H0 Hstale. apply gt_true in Hstale.
  rewrite compose_project_rule_unfold, H0. cbv beta iota zeta. rewrite H0, Hstale.
  destruct (populate_cache_stamped_between host (ticked s)) as [Hclock Hcase].
  destruct (populate_cache host (ticked s)) as [[[]|e] s2]; cbn [fst snd] in *; [|done].
  destruct (container_cache s2 !! nserver.name q) as [entry'|] eqn:H2; [|done].
  intros [= Hresp <-]. destruct (Hcase _ _ H2) as (i' & Hi' & Hlu').
  pose proof (served_ttl _ _ _ _ _ Hresp) as Httl.
  assert (clock_reads s ≤ i')%nat as Hle by (cbn in Hi'; lia).
  exists entry'. split_and!.
  - done.
  - rewrite Hlu'. by apply Hmono.
  - eapply Forall_impl; [exact Httl|]. cbn. intros a ->. split; [done|].
    by apply (ttl_at_stamped_later (time_time host) i' (clock_reads s) entry' Hmono).
  - intros Hlater. eapply Forall_impl; [exact Httl|]. cbn. intros a ->. unfold ttl_at.
    assert (time_time host (clock_reads s) - last_updated entry' <= -1)%Q as Hneg by lra.
    pose proof (int_le_m1 _ (fsub_le_m1 _ _ Hneg)). lia.
Qed.

Lemma X7_ttl_after_stale_rebuild_witness :
  ∃ entry',
    container_cache
      (compose_project_rule
         (Sample.host_of (Sample.clock_jump 161 (327 # 2)) (Some [Sample.web1]))
         Sample.query_A (Sample.serving Sample.web_entry)).2
      !! "web.shop.dcdc" = Some entry'
    ∧ (161 <= last_updated entry')%Q
    ∧ Forall (λ a, nserver.ttl_of a = ttl_at 161 entry' ∧ (60 ≤ nserver.ttl_of a)%Z)
        [nserver.A "web.shop.dcdc" "10.0.0.5" 62]
    ∧ ((1 <= last_updated entry' - 161)%Q →
       Forall (λ a, (61 ≤ nserver.ttl_of a)%Z) [nserver.A "web.shop.dcdc" "10.0.0.5" 62]).
Proof.
  apply (X7_ttl_after_stale_rebuild
           (Sample.host_of (Sample.clock_jump 161 (327 # 2)) (Some [Sample.web1]))
           Sample.query_A (Sample.serving Sample.web_entry) Sample.web_entry
           {| nserver.answers := [nserver.A "web.shop.dcdc" "10.0.0.5" 62] |}
           (compose_project_rule
              (Sample.host_of (Sample.clock_jump 161 (327 # 2)) (Some [Sample.web1]))
              Sample.query_A (Sample.serving Sample.web_entry)).2).
  - intros [|i] [|j] Hij; cbn; (discriminate || lia).
  - reflexivity.
  - reflexivity.
  - vm_compute. reflexivity.
Defined.

(** X8 (disappearance).  When the float difference [now - last_updated] of
    the stored entry is above 60, the runtime's snapshot files no container
    under the query name, and every container of the snapshot that has the
    project label has the ordinal label too (so that the rebuild
    completes), the rule returns [None] after one runtime call, and the
    name is gone from the cache: the old addresses are not served again. *)
Theorem X8_disappearance host q s entry cs :
  container_cache s !! nserver.name q = Some entry →
  (60 < fsub (time_time host (clock_reads s)) (last_updated entry))%Q →
  containers_list host (docker_calls s) = Some cs →
  (∀ c, c ∈ cs →
        is_Some (Docker.labels c !! "com.docker.compose.project") →
        is_Some (Docker.labels c !! "com.docker.compose.container-number")) →
  (∀ c, c ∈ cs → key_of host c ≠ Some (nserver.name q)) →
  (compose_project_rule host q s).1 = Returned None
  ∧ container_cache (compose_project_rule host q s).2 !! nserver.name q = None
  ∧ docker_calls (compose_project_rule host q s).2 = S (docker_calls s).
Proof.
  intros H0 Hstale Hcs Hall Hgone. apply gt_true in Hstale.
  rewrite compose_project_rule_unfold, H0. cbv beta iota zeta. rewrite H0, Hstale.
  destruct (populate_cache_built host (ticked s) cs Hcs Hall) as (cache & s2 & Hloop & Hpop).
  pose proof (populate_cache_calls host (ticked s)) as Hcalls.
  rewrite Hpop in *.
  destruct (for_each_populate_lookup _ _ _ _ _ _ Hloop (nserver.name q)) as (_ & _ & Hin).
  destruct (container_cache (with_cache cache s2) !! nserver.name q) as [e|] eqn:H2; [|done].
  exfalso. cbn in H2. rewrite H2, lookup_empty in Hin.
  destruct (proj1 Hin) as [[? [=]]|Hmem]; [eauto|].
  apply members_nonempty in Hmem as (c & Hc & Hk). by eapply Hgone.
Qed.

Lemma X8_disappearance_witness :
  (compose_project_rule (Sample.host_of (λ _, 161%Q) (Some [Sample.stray])) Sample.query_A
     (Sample.serving Sample.web_entry)).1 = Returned None
  ∧ container_cache
      (compose_project_rule (Sample.host_of (λ _, 161%Q) (Some [Sample.stray])) Sample.query_A
         (Sample.serving Sample.web_entry)).2 !! "web.shop.dcdc" = None
  ∧ docker_calls
      (compose_project_rule (Sample.host_of (λ _, 161%Q) (Some [Sample.stray])) Sample.query_A
         (Sample.serving Sample.web_entry)).2 = 1%nat.
Proof.
  apply (X8_disappearance (Sample.host_of (λ _, 161%Q) (Some [Sample.stray])) Sample.query_A
           (Sample.serving Sample.web_entry) Sample.web_entry [Sample.stray]).
  - reflexivity.
  - reflexivity.
  - reflexivity.
  - each_sample_container.
  - intros c Hc. apply list_elem_of_singleton in Hc as ->. vm_compute. discriminate.
Defined.

(** X9 (asking again).  After the rule has answered a query, a second query
    for the same name and type whose clock reading is at most 60 seconds
    past the served entry's [last_updated] makes no runtime call, leaves
    the cache as it is and fills its response from the same entry at the
    new TTL; when the library builds the records at that TTL, it returns
    the same addresses in the same order. *)
Theorem X9_asking_again host q s resp s' entry :
  compose_project_rule host q s = (Returned (Some resp), s') →
  container_cache s' !! nserver.name q = Some entry →
  (time_time host (clock_reads s') - last_updated entry <= 60)%Q →
  compose_project_rule host q s'
  = (served (respond host q entry (ttl_at (time_time host (clock_reads s')) entry)),
     ticked s')
  ∧ (accepted host q (matching_addresses q entry)
       (ttl_at (time_time host (clock_reads s')) entry) →
     ∃ resp',
       compose_project_rule host q s' = (Returned (Some resp'), ticked s')
       ∧ map nserver.ip_of (nserver.answers resp') = map nserver.ip_of (nserver.answers resp)).
Proof.
  intros Hrun Hin Hfresh. apply fsub_le_60 in Hfresh.
  pose proof (compose_project_rule_type_blind host q q s eq_refl) as [_ H].
  rewrite Hrun in H. cbn [fst snd] in H.
  destruct (H resp eq_refl) as (entry0 & ttl & Hin0 & -> & _).
  assert (entry0 = entry) as -> by congruence.
  rewrite (compose_project_rule_fresh host q s' entry Hin Hfresh).
  split; [done|]. intros Hacc. rewrite respond_accepted by done.
  eexists. split; [reflexivity|]. by rewrite !response_for_ips.
Qed.

Lemma X9_asking_again_witness :
  compose_project_rule (Sample.host_of (λ _, 130%Q) None) Sample.query_A
    (ticked (Sample.serving Sample.web_entry))
  = (served (respond (Sample.host_of (λ _, 130%Q) None) Sample.query_A Sample.web_entry
               (ttl_at 130 Sample.web_entry)),
     ticked (ticked (Sample.serving Sample.web_entry)))
  ∧ (accepted (Sample.host_of (λ _, 130%Q) None) Sample.query_A
       (matching_addresses Sample.query_A Sample.web_entry) (ttl_at 130 Sample.web_entry) →
     ∃ resp',
       compose_project_rule (Sample.host_of (λ _, 130%Q) None) Sample.query_A
         (ticked (Sample.serving Sample.web_entry))
       = (Returned (Some resp'), ticked (ticked (Sample.serving Sample.web_entry)))
       ∧ map nserver.ip_of (nserver.answers resp')
         = map nserver.ip_of [nserver.A "web.shop.dcdc" "10.0.0.5" 30]).
Proof.
  apply (X9_asking_again (Sample.host_of (λ _, 130%Q) None) Sample.query_A
           (Sample.serving Sample.web_entry)
           {| nserver.answers := [nserver.A "web.shop.dcdc" "10.0.0.5" 30] |}
           (ticked (Sample.serving Sample.web_entry)) Sample.web_entry).
  - reflexivity.
  - reflexivity.
  - vm_compute. discriminate.
Defined.

Lemma compose_project_rule_calls_bounds host q s :
  (docker_calls s ≤ docker_calls (compose_project_rule host q s).2 ≤ docker_calls s + 2)%nat.
Proof.
  rewrite compose_project_rule_unfold.
  destruct (container_cache s !! nserver.name q) as [entry|] eqn:H0.
  - rewrite H0. cbv beta iota zeta. destruct (gt _ _); [|cbn; lia].
    pose proof (populate_cache_calls host (ticked s)) as Hcalls.
    destruct (populate_cache host (ticked s)) as [[[]|e] s2]; [|cbn in *; lia].
    destruct (container_cache s2 !! nserver.name q); cbn in *; lia.
  - pose proof (populate_cache_calls host s) as Hcalls1.
    destruct (populate_cache host s) as [[[]|e] s1]; [|cbn in *; lia].
    destruct (container_cache s1 !! nserver.name q) as [entry|]; [|cbn in *; lia].
    cbv beta iota zeta. destruct (gt _ _); [|cbn in *; lia].
    pose proof (populate_cache_calls host (ticked s1)) as Hcalls.
    destruct (populate_cache host (ticked s1)) as [[[]|e] s2]; [|cbn in *; lia].
    destruct (container_cache s2 !! nserver.name q); cbn in *; lia.
Qed.

(** X10 (the cost of a run).  Serving a run of queries never calls the
    runtime more than twice per query, whatever the queries, the clock and
    the runtime's answers. *)
Theorem X10_run_cost host queries s :
  (docker_calls s ≤ docker_calls (serve host queries s).2
   ≤ docker_calls s + 2 * length queries)%nat.
Proof.
  revert s. induction queries as [|q queries IH]; intros s; [cbn; lia|].
  cbn [serve fst snd length].
  pose proof (compose_project_rule_calls_bounds host q s) as Hq.
  specialize (IH (compose_project_rule host q s).2). lia.
Qed.

(** ** Interface addresses *)

Lemma append_links_ok interface links ip_list :
  (∀ link, link ∈ links → is_Some (link !! "addr")) →
  append_links interface links ip_list
  = Returned (ip_list
              ++ (links ≫= λ link,
                    from_option (λ addr, [addr +:+ " (" +:+ interface +:+ ")"]) []
                      (link !! "addr"))).
Proof.
  revert ip_list. induction links as [|link links IH]; intros ip_list Hall.
  - cbn. by rewrite app_nil_r.
  - cbn [append_links]. destruct (Hall link) as [addr Haddr]; [apply list_elem_of_here|].
    rewrite Haddr, IH by (intros l Hl; apply Hall; by apply list_elem_of_further).
    rewrite bind_cons, Haddr. cbn [from_option]. by rewrite <- app_assoc.
Qed.

Lemma append_links_fail interface links link ip_list :
  link ∈ links → link !! "addr" = None →
  append_links interface links ip_list = Raised (KeyError "addr").
Proof.
  intros Hin Hnone. revert ip_list.
  induction links as [|l links IH]; intros ip_list; [by apply elem_of_nil in Hin|].
  cbn [append_links]. destruct (l !! "addr") as [addr|] eqn:Hl; [|done].
  apply elem_of_cons in Hin as [->|Hin]; [congruence|by apply IH].
Qed.

Lemma append_interfaces_ok report names ip_list :
  (∀ interface link, interface ∈ names → link ∈ inet_links report interface →
                     is_Some (link !! "addr")) →
  append_interfaces report names ip_list
  = Returned (ip_list
              ++ (names ≫= λ interface,
                    inet_links report interface ≫= λ link,
                      from_option (λ addr, [addr +:+ " (" +:+ interface +:+ ")"]) []
                        (link !! "addr"))).
Proof.
  revert ip_list. induction names as [|interface names IH]; intros ip_list Hall.
  - cbn. by rewrite app_nil_r.
  - cbn [append_interfaces].
    rewrite append_links_ok by (intros l Hl; eapply Hall; [apply list_elem_of_here|done]).
    rewrite IH by (intros i l Hi Hl; eapply Hall; [by apply list_elem_of_further|done]).
    by rewrite bind_cons, <- app_assoc.
Qed.

Lemma append_interfaces_fail report names interface link ip_list :
  interface ∈ names → link ∈ inet_links report interface → link !! "addr" = None →
  append_interfaces report names ip_list = Raised (KeyError "addr").
Proof.
  intros Hin Hlink Hnone. revert ip_list.
  induction names as [|i names IH]; intros ip_list; [by apply elem_of_nil in Hin|].
  cbn [append_interfaces].
  destruct (append_links i (inet_links report i) ip_list) as [l|e] eqn:Hl.
  - apply elem_of_cons in Hin as [->|Hin]; [|by apply IH].
    by rewrite (append_links_fail _ _ link) in Hl.
  - f_equal. revert Hl. generalize ip_list. generalize (inet_links report i).
    induction l as [|l0 l IHl]; intros acc; cbn [append_links]; [done|].
    destruct (l0 !! "addr"); [apply IHl|congruence].
Qed.

(** X11 (the list of addresses).  When every IPv4 link that [netifaces]
    reports has an "addr", [get_available_ips] returns a list that ends
    with "0.0.0.0 (all above)", so it is never empty; before that line it
    has one line per IPv4 link, each of the form "<addr> (<interface>)",
    and nothing else.  An interface without IPv4 links adds no line. *)
Theorem X11_available_ips report :
  (∀ interface link,
     interface ∈ netifaces.interfaces report → link ∈ inet_links report interface →
     is_Some (link !! "addr")) →
  ∃ lines,
    get_available_ips report = Returned (lines ++ ["0.0.0.0 (all above)"])
    ∧ length lines
      = sum_list ((λ interface, length (inet_links report interface))
                    <$> netifaces.interfaces report)
    ∧ ∀ line, line ∈ lines ↔
        ∃ interface link addr,
          interface ∈ netifaces.interfaces report
          ∧ link ∈ inet_links report interface
          ∧ link !! "addr" = Some addr
          ∧ line = addr +:+ " (" +:+ interface +:+ ")".
Proof.
  intros Hall. unfold get_available_ips.
  rewrite append_interfaces_ok by done. cbn [app]. eexists. split; [done|]. split.
  - revert Hall. generalize (netifaces.interfaces report).
    induction l as [|i names IH]; intros Hall; [done|].
    rewrite bind_cons, length_app, fmap_cons. cbn [sum_list sum_list_with].
    rewrite IH by (intros i' l' Hi'; apply Hall; by apply list_elem_of_further).
    f_equal.
    assert (∀ link, link ∈ inet_links report i → is_Some (link !! "addr")) as Hi
      by (intros l' Hl'; eapply Hall; [apply list_elem_of_here|done]).
    revert Hi. generalize (inet_links report i).
    induction l as [|l0 l IHl]; intros Hl; [done|].
    rewrite bind_cons, length_app. destruct (Hl l0) as [a Ha]; [apply list_elem_of_here|].
    rewrite Ha. cbn. f_equal. apply IHl. intros l' Hl'. apply Hl.
    by apply list_elem_of_further.
  - intros line. rewrite list_elem_of_bind. split.
    + intros (i & Hline & Hi). apply list_elem_of_bind in Hline as (link & Hline & Hlink).
      destruct (link !! "addr") as [a|] eqn:Ha; cbn in Hline;
        [|by apply elem_of_nil in Hline].
      apply list_elem_of_singleton in Hline as ->. by exists i, link, a.
    + intros (i & link & a & Hi & Hlink & Ha & ->). exists i. split; [|done].
      apply list_elem_of_bind. exists link. split; [|done]. rewrite Ha. cbn.
      by apply list_elem_of_singleton.
Qed.

(** X12 (a link without an address).  When some IPv4 link of some reported
    interface has no "addr", [get_available_ips] raises [KeyError] and
    returns no list at all, not even the wildcard line. *)
Theorem X12_available_ips_key_error report interface link :
  interface ∈ netifaces.interfaces report →
  link ∈ inet_links report interface →
  link !! "addr" = None →
  get_available_ips report = Raised (KeyError "addr").
Proof.
  intros Hi Hlink Hnone. unfold get_available_ips.
  by rewrite (append_interfaces_fail report _ interface link).
Qed.

Lemma X11_available_ips_witness :
  ∃ lines,
    get_available_ips SampleNet.machine = Returned (lines ++ ["0.0.0.0 (all above)"])
    ∧ length lines
      = sum_list ((λ interface, length (inet_links SampleNet.machine interface))
                    <$> netifaces.interfaces SampleNet.machine)
    ∧ ∀ line, line ∈ lines ↔
        ∃ interface link addr,
          interface ∈ netifaces.interfaces SampleNet.machine
          ∧ link ∈ inet_links SampleNet.machine interface
          ∧ link !! "addr" = Some addr
          ∧ line = addr +:+ " (" +:+ interface +:+ ")".
Proof.
  apply (X11_available_ips SampleNet.machine).
  intros interface link Hi Hlink.
  repeat (apply elem_of_cons in Hi as [->|Hi]); [| | |by apply elem_of_nil in Hi].
  - apply list_elem_of_singleton in Hlink as ->. by eexists.
  - apply list_elem_of_singleton in Hlink as ->. by eexists.
  - by apply elem_of_nil in Hlink.
Defined.

Lemma X12_available_ips_key_error_witness :
  get_available_ips SampleNet.broken = Raised (KeyError "addr").
Proof.
  apply (X12_available_ips_key_error SampleNet.broken "eth0"
           {[ "netmask" := "255.255.255.0" ]}).
  - apply list_elem_of_further, list_elem_of_here.
  - apply list_elem_of_here.
  - reflexivity.
Defined.

(** ** The root domain *)

Lemma lstrip_first_char s : first_char (lstrip s) ≠ Some "."%char.
Proof.
  induction s as [|c s IH]; [done|]. cbn [lstrip]. unfold is_dot.
  destruct (Ascii.eqb c ".") eqn:Hc; [done|]. cbn. intros [= ->].
  by rewrite Ascii.eqb_refl in Hc.
Qed.

Lemma rstrip_cons c s :
  rstrip (String c s) = EmptyString ∨ ∃ r, rstrip (String c s) = String c r.
Proof.
  cbn [rstrip]. destruct (rstrip s); [|eauto]. destruct (is_dot c); eauto.
Qed.

Lemma rstrip_first_char s :
  first_char s ≠ Some "."%char → first_char (rstrip s) ≠ Some "."%char.
Proof.
  destruct s as [|c s]; [done|]. intros Hc.
  destruct (rstrip_cons c s) as [->|[r ->]]; done.
Qed.

Lemma rstrip_last_char s : last_char (rstrip s) ≠ Some "."%char.
Proof.
  induction s as [|c s IH]; [done|]. cbn [rstrip].
  destruct (rstrip s) as [|c' r] eqn:Hr.
  - unfold is_dot. destruct (Ascii.eqb c ".") eqn:Hc; [done|]. cbn. intros [= ->].
    by rewrite Ascii.eqb_refl in Hc.
  - done.
Qed.

Lemma lstrip_id s : first_char s ≠ Some "."%char → lstrip s = s.
Proof.
  destruct s as [|c s]; [done|]. cbn. unfold is_dot.
  destruct (Ascii.eqb c ".") eqn:Hc; [|done]. apply Ascii.eqb_eq in Hc as ->. done.
Qed.

Lemma rstrip_id s : last_char s ≠ Some "."%char → rstrip s = s.
Proof.
  induction s as [|c s IH]; [done|]. intros Hlast. cbn [rstrip].
  destruct s as [|c' s'].
  - cbn. unfold is_dot. destruct (Ascii.eqb c ".") eqn:Hc; [|done].
    apply Ascii.eqb_eq in Hc as ->. done.
  - rewrite IH by done. done.
Qed.

(** X13 (the root domain has no dots at its ends).  The ROOT_DOMAIN that
    [get_nserver] gives the server, and writes back to the arguments, is
    the [--root-domain] argument without the dots at its start and at its
    end: it neither starts nor ends with a dot, it is the argument itself
    when that has no such dots, and running [get_nserver] again on the
    arguments it wrote back changes nothing.  The other settings are the
    arguments as given. *)
Theorem X13_root_domain_stripped args :
  first_char (SETTINGS_ROOT_DOMAIN (get_nserver args).1) ≠ Some "."%char
  ∧ last_char (SETTINGS_ROOT_DOMAIN (get_nserver args).1) ≠ Some "."%char
  ∧ (first_char (args_root_domain args) ≠ Some "."%char →
     last_char (args_root_domain args) ≠ Some "."%char →
     SETTINGS_ROOT_DOMAIN (get_nserver args).1 = args_root_domain args)
  ∧ args_root_domain (get_nserver args).2 = SETTINGS_ROOT_DOMAIN (get_nserver args).1
  ∧ get_nserver (get_nserver args).2 = get_nserver args
  ∧ SERVER_TYPE (get_nserver args).1 = args_transport args
  ∧ SERVER_ADDRESS (get_nserver args).1 = args_host args
  ∧ SERVER_PORT (get_nserver args).1 = args_port args.
Proof.
  assert (∀ s, strip (strip s) = strip s) as Hidem.
  { intros s. unfold strip at 1.
    rewrite lstrip_id by (apply rstrip_first_char, lstrip_first_char).
    apply rstrip_id, rstrip_last_char. }
  cbn [get_nserver fst snd SETTINGS_ROOT_DOMAIN args_root_domain SERVER_TYPE
       SERVER_ADDRESS SERVER_PORT args_transport args_host args_port].
  split_and!; try done.
  - apply rstrip_first_char, lstrip_first_char.
  - apply rstrip_last_char.
  - intros Hfirst Hlast. unfold strip. by rewrite lstrip_id, rstrip_id.
  - unfold get_nserver. cbn.
    change (rstrip (lstrip (strip (args_root_domain args))))
      with (strip (strip (args_root_domain args))).
    by rewrite Hidem.
Qed.

Example strip_samples :
  strip "..docker.local." = "docker.local" ∧ strip ".dcdc" = "dcdc"
  ∧ strip "a.b" = "a.b" ∧ strip "..." = "" ∧ strip "" = "".
Proof. repeat split. Qed.

(** ** Keys and names *)

Lemma string_append_cons c a b : String c a +:+ b = String c (a +:+ b).
Proof. reflexivity. Qed.

Lemma string_append_assoc a b c : (a +:+ b) +:+ c = a +:+ (b +:+ c).
Proof.
  induction a as [|x a IH]; [done|]. rewrite !string_append_cons. by rewrite IH.
Qed.

Lemma string_append_cancel_r x y z : x +:+ z = y +:+ z → x = y.
Proof.
  revert y. induction x as [|a x IH]; intros [|b y] H.
  - done.
  - apply (f_equal String.length) in H. rewrite !string_length_append in H. cbn in H. lia.
  - apply (f_equal String.length) in H. rewrite !string_length_append in H. cbn in H. lia.
  - rewrite !string_append_cons in H. injection H as -> H. f_equal. by apply IH.
Qed.

Lemma string_append_nil_l a : "" +:+ a = a.
Proof. reflexivity. Qed.

Lemma has_dot_append a b : has_dot (a +:+ String "." b) = true.
Proof.
  induction a as [|x a IH]; [done|]. rewrite string_append_cons. cbn [has_dot].
  rewrite IH. apply orb_true_r.
Qed.

(** Cutting at the last dot: with no dot after it, there is one way only. *)
Lemma string_split_last_dot a b p q :
  has_dot p = false → has_dot q = false →
  a +:+ String "." p = b +:+ String "." q → a = b ∧ p = q.
Proof.
  intros Hp Hq. revert b. induction a as [|x a IH]; intros [|y b] H.
  - rewrite !string_append_nil_l in H. by injection H as ->.
  - rewrite string_append_nil_l, string_append_cons in H. injection H as <- ->.
    by rewrite has_dot_append in Hp.
  - rewrite string_append_nil_l, string_append_cons in H. injection H as -> <-.
    by rewrite has_dot_append in Hq.
  - rewrite !string_append_cons in H. injection H as -> H.
    destruct (IH _ H) as [-> ->]. done.
Qed.

(** X14 (one key, one service).  Two containers whose project labels have
    no dot in them are filed under the same key only if they have the same
    project label and their service labels are rendered alike: services of
    different projects, and differently named services of one project,
    never share a cache entry. *)
Theorem X14_key_injective host c1 c2 p1 p2 :
  Docker.labels c1 !! "com.docker.compose.project" = Some p1 →
  Docker.labels c2 !! "com.docker.compose.project" = Some p2 →
  has_dot p1 = false → has_dot p2 = false →
  key_of host c1 = key_of host c2 →
  p1 = p2
  ∧ format_value (Docker.labels c1 !! "com.docker.compose.service")
    = format_value (Docker.labels c2 !! "com.docker.compose.service").
Proof.
  intros H1 H2 Hp1 Hp2. unfold key_of. rewrite H1, H2. intros [= Hkey].
  unfold cache_key_of in Hkey.
  change (?a +:+ "." +:+ ?p +:+ "." +:+ ROOT_DOMAIN host)
    with (a +:+ String "." p +:+ "." +:+ ROOT_DOMAIN host) in Hkey.
  rewrite <- !(string_append_assoc _ (String "." _)) in Hkey.
  do 2 apply string_append_cancel_r in Hkey.
  destruct (string_split_last_dot _ _ _ _ Hp1 Hp2 Hkey) as [-> ->]. done.
Qed.

Lemma X14_key_injective_witness :
  "shop" = "shop"
  ∧ format_value (Docker.labels Sample.web1 !! "com.docker.compose.service")
    = format_value (Docker.labels Sample.web2 !! "com.docker.compose.service").
Proof.
  apply (X14_key_injective Sample.three_containers Sample.web1 Sample.web2 "shop" "shop");
    reflexivity.
Defined.

(** X15 (where keys collide).  The key is the plain concatenation of the
    rendered service label, the project label and the root domain, so a
    dot inside a name moves the boundary: service "a.b" of project "c" and
    service "a" of project "b.c" have one key.  And a container without a
    service label has the key of a service that is named "None". *)
Theorem X15_key_collisions host a b c project :
  cache_key_of host (Some (a +:+ "." +:+ b)) c = cache_key_of host (Some a) (b +:+ "." +:+ c)
  ∧ cache_key_of host None project = cache_key_of host (Some "None") project.
Proof.
  split; [|done]. unfold cache_key_of, format_value.
  by rewrite !string_append_assoc.
Qed.

(** ** Rebuild and rule together *)

(** X16 (a new service resolves at once).  When the name is not in the
    cache, the runtime's snapshot files some container under it, every
    project-labelled container of the snapshot carries the ordinal label,
    and no two clock readings are more than 60 seconds apart, the rule
    fills its response after exactly one runtime call, from the new entry
    of the name, whose addresses of the queried family are those of all
    containers filed under the name, in snapshot order; when the library
    builds the records, the rule answers with these addresses. *)
Theorem X16_first_query_resolves host q s cs :
  container_cache s !! nserver.name q = None →
  containers_list host (docker_calls s) = Some cs →
  (∀ c, c ∈ cs →
        is_Some (Docker.labels c !! "com.docker.compose.project") →
        is_Some (Docker.labels c !! "com.docker.compose.container-number")) →
  (∃ c, c ∈ cs ∧ key_of host c = Some (nserver.name q)) →
  (∀ i j, (time_time host j - time_time host i <= 60)%Q) →
  ∃ s' entry ttl,
    compose_project_rule host q s = (served (respond host q entry ttl), s')
    ∧ docker_calls s' = S (docker_calls s)
    ∧ container_cache s' !! nserver.name q = Some entry
    ∧ matching_addresses q entry
      = members host (nserver.name q) cs
          ≫= (λ c, if String.eqb (nserver.type q) "A"
                   then ipv4_of (Docker.networks c)
                   else ipv6_of (Docker.networks c))
    ∧ (accepted host q (matching_addresses q entry) ttl →
       ∃ resp,
         compose_project_rule host q s = (Returned (Some resp), s')
         ∧ map nserver.ip_of (nserver.answers resp)
           = members host (nserver.name q) cs
               ≫= (λ c, if String.eqb (nserver.type q) "A"
                        then ipv4_of (Docker.networks c)
                        else ipv6_of (Docker.networks c))).
Proof.
  intros H0 Hcs Hall Hsome Hclock.
  destruct (populate_cache_built host s cs Hcs Hall) as (cache & s2 & Hloop & Hpop).
  pose proof (populate_cache_calls host s) as Hcalls. rewrite Hpop in Hcalls.
  destruct (for_each_populate_lookup _ _ _ _ _ _ Hloop (nserver.name q)) as (H4 & H6 & Hin).
  destruct (proj2 Hin) as [e He]; [right; by apply members_nonempty|].
  destruct (for_each_populate_stamps _ _ _ _ _ _ Hloop) as [_ Hstamp].
  destruct (Hstamp (clock_reads s) ltac:(done) ltac:(intros ? ?; by rewrite lookup_empty)
              _ _ He) as (i & _ & Hlu).
  assert (matching_addresses q e
          = members host (nserver.name q) cs
              ≫= (λ c, if String.eqb (nserver.type q) "A"
                       then ipv4_of (Docker.networks c)
                       else ipv6_of (Docker.networks c))) as Hips.
  { unfold matching_addresses, ipv4_at, ipv6_at in *.
    rewrite He, lookup_empty in H4, H6. cbn in H4, H6.
    by destruct (String.eqb _ _). }
  assert (compose_project_rule host q s
          = (served (respond host q e
                       (ttl_at (time_time host (clock_reads (with_cache cache s2))) e)),
             ticked (with_cache cache s2))) as Hrun.
  { rewrite (compose_project_rule_after_miss host q s _ e H0 Hpop He).
    apply compose_project_rule_fresh; [done|]. apply fsub_le_60. rewrite Hlu. apply Hclock. }
  eexists _, e, _. split_and!; [exact Hrun|done|done|done|].
  intros Hacc. rewrite Hrun, respond_accepted by done.
  eexists. split; [reflexivity|]. by rewrite response_for_ips.
Qed.

Lemma X16_first_query_resolves_witness :
  ∃ s' entry ttl,
    compose_project_rule Sample.three_containers Sample.query_A setup
    = (served (respond Sample.three_containers Sample.query_A entry ttl), s')
    ∧ docker_calls s' = S (docker_calls setup)
    ∧ container_cache s' !! nserver.name Sample.query_A = Some entry
    ∧ matching_addresses Sample.query_A entry
      = members Sample.three_containers (nserver.name Sample.query_A)
          [Sample.web1; Sample.stray; Sample.web2]
          ≫= (λ c, if String.eqb (nserver.type Sample.query_A) "A"
                   then ipv4_of (Docker.networks c)
                   else ipv6_of (Docker.networks c))
    ∧ (accepted Sample.three_containers Sample.query_A
         (matching_addresses Sample.query_A entry) ttl →
       ∃ resp,
         compose_project_rule Sample.three_containers Sample.query_A setup
         = (Returned (Some resp), s')
         ∧ map nserver.ip_of (nserver.answers resp)
           = members Sample.three_containers (nserver.name Sample.query_A)
               [Sample.web1; Sample.stray; Sample.web2]
               ≫= (λ c, if String.eqb (nserver.type Sample.query_A) "A"
                        then ipv4_of (Docker.networks c)
                        else ipv6_of (Docker.networks c))).
Proof.
  apply (X16_first_query_resolves Sample.three_containers Sample.query_A setup
           [Sample.web1; Sample.stray; Sample.web2]).
  - reflexivity.
  - reflexivity.
  - each_sample_container.
  - exists Sample.web1. split; [apply list_elem_of_here|reflexivity].
  - intros i j. vm_compute. discriminate.
Defined.

Lemma populate_cache_runtime_down host s :
  containers_list host (docker_calls s) = None →
  populate_cache host s = (Raised DockerException, called (logged "populating cache" s)).
Proof. intros H. rewrite populate_cache_unfold. cbv zeta. by rewrite H. Qed.

Lemma served_not_none o : served o ≠ Returned None.
Proof. by destruct o. Qed.

(** One query while the runtime is down. *)
Lemma compose_project_rule_runtime_down host q s :
  (∀ i, containers_list host i = None) →
  container_cache (compose_project_rule host q s).2 = container_cache s
  ∧ (clock_reads s ≤ clock_reads (compose_project_rule host q s).2)%nat
  ∧ (compose_project_rule host q s).1 ≠ Returned None
  ∧ ((compose_project_rule host q s).1 = Raised DockerException
     ∨ ∃ entry,
         container_cache s !! nserver.name q = Some entry
         ∧ (clock_reads s < clock_reads (compose_project_rule host q s).2)%nat
         ∧ (fsub (time_time host (clock_reads s)) (last_updated entry) <= 60)%Q
         ∧ (compose_project_rule host q s).1
           = served (respond host q entry (ttl_at (time_time host (clock_reads s)) entry))).
Proof.
  intros Hdown. rewrite compose_project_rule_unfold.
  destruct (container_cache s !! nserver.name q) as [entry|] eqn:H0.
  - rewrite H0. cbv beta iota zeta. destruct (gt _ _) eqn:Hgt.
    + rewrite populate_cache_runtime_down by apply Hdown. cbn. split_and!; eauto with lia.
    + apply gt_false in Hgt. cbn [fst snd].
      split_and!; [done|cbn; lia|apply served_not_none|]. right.
      exists entry. split_and!; [done|cbn; lia|done|done].
  - rewrite populate_cache_runtime_down by apply Hdown. cbn. split_and!; eauto with lia.
Qed.

(** X17 (while the runtime is down).  As long as every call of the runtime
    fails, a run of queries leaves the cache exactly as it was, and no
    query is answered with [None]: each one either ends with the runtime's
    exception, or finds its name in the cache with an entry whose float age
    at a clock reading [now] taken during the run is at most 60, and ends
    as filling the response from that entry at the TTL of [now] ends. *)
Theorem X17_runtime_down host queries s :
  (∀ i, containers_list host i = None) →
  container_cache (serve host queries s).2 = container_cache s
  ∧ (clock_reads s ≤ clock_reads (serve host queries s).2)%nat
  ∧ Forall2 (λ q o,
       o ≠ Returned None
       ∧ (o = Raised DockerException
          ∨ ∃ entry i,
              container_cache s !! nserver.name q = Some entry
              ∧ (clock_reads s ≤ i < clock_reads (serve host queries s).2)%nat
              ∧ (fsub (time_time host i) (last_updated entry) <= 60)%Q
              ∧ o = served (respond host q entry (ttl_at (time_time host i) entry))))
      queries (serve host queries s).1.
Proof.
  intros Hdown. revert s.
  induction queries as [|q queries IH]; intros s; [by split_and!; [| |constructor]|].
  cbn [serve fst snd].
  destruct (compose_project_rule_runtime_down host q s Hdown) as (Hc & Hclock & Hnone & Ho).
  destruct (IH (compose_project_rule host q s).2) as (IHc & IHclock & IHo).
  rewrite Hc in IHc, IHo. split_and!; [done|lia|]. constructor.
  - split; [done|]. destruct Ho as [Ho|(entry & Hin & Hlt & Hage & Ho)]; [by left|right].
    exists entry, (clock_reads s). split_and!; [done|lia|lia|done|done].
  - eapply Forall2_impl; [exact IHo|]. cbv beta.
    intros q' o [Hn [Hr|(entry & i & Hin & Hi & Hage & Hserved)]]; (split; [done|]);
      [by left|right].
    exists entry, i. split_and!; [done|lia|lia|done|done].
Qed.

Lemma X17_runtime_down_witness :
  container_cache
    (serve (Sample.host_of (Sample.clock_jump 130 161) None)
       [Sample.query_A; Sample.query_A] (Sample.serving Sample.web_entry)).2
  = container_cache (Sample.serving Sample.web_entry)
  ∧ (clock_reads (Sample.serving Sample.web_entry)
     ≤ clock_reads
         (serve (Sample.host_of (Sample.clock_jump 130 161) None)
            [Sample.query_A; Sample.query_A] (Sample.serving Sample.web_entry)).2)%nat
  ∧ Forall2 (λ q o,
       o ≠ Returned None
       ∧ (o = Raised DockerException
          ∨ ∃ entry i,
              container_cache (Sample.serving Sample.web_entry) !! nserver.name q
              = Some entry
              ∧ (clock_reads (Sample.serving Sample.web_entry) ≤ i
                 < clock_reads
                     (serve (Sample.host_of (Sample.clock_jump 130 161) None)
                        [Sample.query_A; Sample.query_A]
                        (Sample.serving Sample.web_entry)).2)%nat
              ∧ (fsub (time_time (Sample.host_of (Sample.clock_jump 130 161) None) i)
                   (last_updated entry) <= 60)%Q
              ∧ o = served (respond (Sample.host_of (Sample.clock_jump 130 161) None) q entry
                              (ttl_at (time_time
                                         (Sample.host_of (Sample.clock_jump 130 161) None) i)
                                 entry))))
      [Sample.query_A; Sample.query_A]
      (serve (Sample.host_of (Sample.clock_jump 130 161) None)
         [Sample.query_A; Sample.query_A] (Sample.serving Sample.web_entry)).1.
Proof.
  apply (X17_runtime_down (Sample.host_of (Sample.clock_jump 130 161) None)
           [Sample.query_A; Sample.query_A] (Sample.serving Sample.web_entry)).
  intros i. reflexivity.
Defined.

(** X18 (how a rebuild can end).  A rebuild raises [DockerException] when
    the runtime call fails; it raises [KeyError] for the ordinal label when
    the snapshot holds a container that has the project label and lacks
    the ordinal label; in every other case it completes. *)
Theorem X18_rebuild_outcomes host s :
  (populate_cache host s).1
  = match containers_list host (docker_calls s) with
    | None => Raised DockerException
    | Some cs =>
        if decide (Forall (λ c,
                     is_Some (Docker.labels c !! "com.docker.compose.project") →
                     is_Some (Docker.labels c !! "com.docker.compose.container-number")) cs)
        then Returned tt
        else Raised (KeyError "com.docker.compose.container-number")
    end.
Proof.
  destruct (containers_list host (docker_calls s)) as [cs|] eqn:Hcs.
  2:{ by rewrite populate_cache_runtime_down. }
  case_decide as Hall.
  - destruct (populate_cache_completes host s cs Hcs) as [s' ->]; [|done].
    intros c Hc. by apply (proj1 (Forall_forall _ _) Hall).
  - apply not_Forall_Exists in Hall; [|apply _].
    apply Exists_exists in Hall as (c & Hc & Hbad). cbn in Hbad.
    rewrite populate_cache_unfold. cbv zeta. rewrite Hcs.
    destruct (Docker.labels c !! "com.docker.compose.project") as [p|] eqn:Hp.
    2:{ exfalso. apply Hbad. by intros [? [=]]. }
    destruct (Docker.labels c !! "com.docker.compose.container-number") as [n|] eqn:Hn.
    { exfalso. apply Hbad. eauto. }
    pose proof (for_each_populate_no_number host cs c ∅
                  (called (logged "populating cache" s)) Hc ltac:(eauto) Hn) as Hloop.
    destruct (for_each _ _ _ _) as [[?|?] ?]; cbn in *; congruence.
Qed.

Lemma populate_cache_exceptions host s e :
  (populate_cache host s).1 = Raised e →
  e = DockerException ∨ e = KeyError "com.docker.compose.container-number".
Proof.
  rewrite populate_cache_unfold. cbv zeta.
  destruct (containers_list host (docker_calls s)) as [cs|]; [|intros [= <-]; by left].
  generalize (called (logged "populating cache" s)).
  generalize (∅ : gmap string CachedContainer).
  induction cs as [|c cs IH]; intros acc s1; [done|].
  cbn [for_each]. unfold bind.
  destruct (populate_container host acc c s1) as [[acc'|e1] s2] eqn:Hstep.
  - apply IH.
  - cbn. intros [= <-]. right. revert Hstep.
    unfold populate_container, bind, info, getitem, ret, raise, time.
    destruct (Docker.labels c !! "com.docker.compose.project"); [|done].
    destruct (acc !! _);
      destruct (Docker.labels c !! "com.docker.compose.container-number");
      cbn; congruence.
Qed.

Lemma served_raised host q entry ttl e :
  served (respond host q entry ttl) = Raised e →
  ∃ ip, ip ∈ matching_addresses q entry ∧ refusal host q ip ttl = Some e.
Proof.
  destruct (respond host q entry ttl) as [r|e'] eqn:Hr; [discriminate|].
  intros [= <-]. by apply respond_raised in Hr.
Qed.

(** X19 (what the rule can raise).  The rule raises nothing of its own:
    when it ends with an exception, that is the [DockerException] or the
    ordinal [KeyError] of a rebuild, or the exception with which the
    library refused to build the record of an address of the entry that
    the rule's cache holds under the query name.  Reading the entry of the
    query name back from the cache to fill the response never fails. *)
Theorem X19_rule_exceptions host q s e :
  (compose_project_rule host q s).1 = Raised e →
  e = DockerException
  ∨ e = KeyError "com.docker.compose.container-number"
  ∨ ∃ entry ip ttl,
      container_cache (compose_project_rule host q s).2 !! nserver.name q = Some entry
      ∧ ip ∈ matching_addresses q entry
      ∧ refusal host q ip ttl = Some e.
Proof.
  assert (∀ s0 e0, (populate_cache host s0).1 = Raised e0 →
            e0 = DockerException
            ∨ e0 = KeyError "com.docker.compose.container-number"
            ∨ ∃ entry ip ttl,
                container_cache (populate_cache host s0).2 !! nserver.name q = Some entry
                ∧ ip ∈ matching_addresses q entry
                ∧ refusal host q ip ttl = Some e0) as Hpop.
  { intros s0 e0 H. destruct (populate_cache_exceptions host s0 e0 H); eauto. }
  assert (∀ entry ttl s0,
            container_cache s0 !! nserver.name q = Some entry →
            served (respond host q entry ttl) = Raised e →
            e = DockerException
            ∨ e = KeyError "com.docker.compose.container-number"
            ∨ ∃ entry ip ttl,
                container_cache s0 !! nserver.name q = Some entry
                ∧ ip ∈ matching_addresses q entry
                ∧ refusal host q ip ttl = Some e) as Hfill.
  { intros entry ttl s0 Hin H. apply served_raised in H as (ip & Hip & Href).
    right. right. eauto 10. }
  rewrite compose_project_rule_unfold.
  destruct (container_cache s !! nserver.name q) as [entry|] eqn:H0.
  - rewrite H0. cbv beta iota zeta. destruct (gt _ _).
    + specialize (Hpop (ticked s)).
      destruct (populate_cache host (ticked s)) as [[[]|e1] s2]; cbn [fst snd] in *.
      * destruct (container_cache s2 !! nserver.name q) as [entry'|] eqn:H2; [|done].
        cbn [fst snd]. by apply Hfill.
      * intros [= <-]. by apply Hpop.
    + cbn [fst snd]. by apply Hfill.
  - pose proof (Hpop s) as Hpop1.
    destruct (populate_cache host s) as [[[]|e1] s1]; cbn [fst snd] in *.
    2:{ intros [= <-]. by apply Hpop1. }
    destruct (container_cache s1 !! nserver.name q) as [entry|] eqn:H1; [|done].
    cbv beta iota zeta. destruct (gt _ _).
    + specialize (Hpop (ticked s1)).
      destruct (populate_cache host (ticked s1)) as [[[]|e2] s2]; cbn [fst snd] in *.
      * destruct (container_cache s2 !! nserver.name q) as [entry'|] eqn:H2; [|done].
        cbn [fst snd]. by apply Hfill.
      * intros [= <-]. by apply Hpop.
    + cbn [fst snd]. by apply Hfill.
Qed.

(** The witness is a query whose stored entry holds an address the library
    refuses: the rule ends with the library's exception. *)
Lemma X19_rule_exceptions_witness :
  LibraryError "ValueError" "bogus" = DockerException
  ∨ LibraryError "ValueError" "bogus" = KeyError "com.docker.compose.container-number"
  ∨ ∃ entry ip ttl,
      container_cache
        (compose_project_rule (Sample.strict_host_of (λ _, 130%Q) None) Sample.query_A
           (Sample.serving Sample.bogus_entry)).2 !! nserver.name Sample.query_A
      = Some entry
      ∧ ip ∈ matching_addresses Sample.query_A entry
      ∧ refusal (Sample.strict_host_of (λ _, 130%Q) None) Sample.query_A ip ttl
        = Some (LibraryError "ValueError" "bogus").
Proof.
  apply (X19_rule_exceptions (Sample.strict_host_of (λ _, 130%Q) None) Sample.query_A
           (Sample.serving Sample.bogus_entry) (LibraryError "ValueError" "bogus")).
  reflexivity.
Defined.
